(** * Processor synchronisation core of hinlines.h

    A shallow embedding of [synchronize_cpus], [wakeup_cpu],
    [wakeup_cpu_mask], [wakeup_cpus_mask], [Obtain_Interrupt_Lock] and
    [Release_Interrupt_Lock], and the properties of the interrupt lock,
    the synchronisation barrier and the wake-up dispatcher proved about
    them.

    Shared storage is a [world]: the fields of [sysblk] the functions
    touch and the [REGS] structures they reach through pointers.  The
    threading primitives the functions call ([obtain_lock],
    [release_lock], [signal_condition], [broadcast_condition],
    [wait_condition]) are recorded as events of a trace.  A primitive
    that blocks gives the other threads the processor: what they did to
    the shared storage in the meantime is the next entry of a schedule
    of interferences, and a call that blocks with the schedule exhausted
    is [Parked] at that primitive. *)

From Stdlib Require Import ZArith NArith List Lia Bool.
From stdpp Require Import base option list gmap.

Local Open Scope Z_scope.

(** ** Bit masks *)

(** Modelled from the spec: the declaration of [CPU_BITMAP] is not in
    hinlines.h; it is a fixed-width unsigned integer sized to the
    largest supported processor count, here 64 bits. *)
Definition CPU_BITMAP_BITS : Z := 64.

Definition wrap (x : Z) : Z := x mod 2 ^ CPU_BITMAP_BITS.

(** [~x] on a [CPU_BITMAP]. *)
Definition bnot (x : Z) : Z := wrap (Z.lnot x).

(** Modelled from the spec: the macro [CPU_BIT] is not in hinlines.h;
    it is the single-bit mask value corresponding to a processor
    index. *)
Definition CPU_BIT (i : nat) : Z := wrap (Z.shiftl 1 (Z.of_nat i)).

(** *** Masks as sets of processor indices *)

Definition is_candidate (mask : Z) (i : nat) : bool := Z.testbit mask (Z.of_nat i).

(** The indices of the bits set in a mask, in ascending order. *)
Definition bits_from (mask : Z) (i k : nat) : list nat :=
  List.filter (is_candidate mask) (seq i k).

Definition set_bits (mask : Z) : list nat :=
  bits_from mask 0 (Z.to_nat CPU_BITMAP_BITS).

Definition in_range (mask : Z) : Prop := 0 <= mask < 2 ^ CPU_BITMAP_BITS.

(** No bit at or above the width of [CPU_BITMAP] is set. *)
Definition low_mask (mask : Z) : Prop :=
  forall j : nat, CPU_BITMAP_BITS <= Z.of_nat j -> is_candidate mask j = false.

(** [j] is one of the [k] indices from [i] on. *)
Definition in_span (i k j : nat) : bool := (i <=? j)%nat && (j <? i + k)%nat.

(** The number of bits set in a mask, counted on its binary digits. *)
Fixpoint pos_popcount (p : positive) : nat :=
  match p with
  | xH => 1
  | xO q => pos_popcount q
  | xI q => S (pos_popcount q)
  end.

Definition popcount (mask : Z) : nat :=
  match mask with
  | Zpos p => pos_popcount p
  | _ => O
  end.

(** ** Data model *)

(** Modelled from the spec: the type [TOD] is not in hinlines.h; a
    wait timestamp is an unsigned counter whose value 0 is the sentinel
    for "not waiting". *)
Definition TOD := N.

(** The fields of [REGS] the functions read and write.  [sie_mode] and
    [ints_state] stand for the part of the structure the processor loop's
    own macros ([SIE_MODE], [ON_IC_INTERRUPT]) act on. *)
Record REGS := mkREGS {
  cpuad : Z;
  cpubit : Z;
  intwait : bool;
  waittod : TOD;
  waittime : TOD;
  sie_mode : bool;
  ints_state : Z
}.

Definition set_intwait (b : bool) (r : REGS) : REGS :=
  {| cpuad := cpuad r; cpubit := cpubit r; intwait := b;
     waittod := waittod r; waittime := waittime r;
     sie_mode := sie_mode r; ints_state := ints_state r |}.

(** Modelled from the spec: the constants [LOCK_OWNER_NONE] and
    [LOCK_OWNER_OTHER] are not in hinlines.h; [intowner] is one of
    "none", "a non-processor actor" or a processor's [cpuad]. *)
Inductive lock_owner :=
| LOCK_OWNER_NONE
| LOCK_OWNER_OTHER
| LOCK_OWNER_CPU (ad : Z).

Record SYSBLK := mkSYSBLK {
  hicpu : nat;
  started_mask : Z;
  waiting_mask : Z;
  sync_mask : Z;
  syncing : bool;
  intowner : lock_owner
}.

(** A pointer to a [REGS] structure names the processor slot it belongs
    to and whether it is the host structure, the one [sysblk.regs[i]]
    points to, or the guest structure nested in it. *)
Inductive regs_ptr := HOST (i : nat) | GUEST (i : nat).

Definition slot (p : regs_ptr) : nat :=
  match p with HOST i => i | GUEST i => i end.

Record world := mkWorld {
  sysblk : SYSBLK;
  host_mem : gmap nat REGS;
  guest_mem : gmap nat REGS
}.

Definition deref (w : world) (p : regs_ptr) : option REGS :=
  match p with
  | HOST i => host_mem w !! i
  | GUEST i => guest_mem w !! i
  end.

Definition store (p : regs_ptr) (r : REGS) (w : world) : world :=
  match p with
  | HOST i => {| sysblk := sysblk w; host_mem := <[i := r]> (host_mem w);
                 guest_mem := guest_mem w |}
  | GUEST i => {| sysblk := sysblk w; host_mem := host_mem w;
                  guest_mem := <[i := r]> (guest_mem w) |}
  end.

(** [sysblk.regs[i]]: a null pointer for a slot with no processor. *)
Definition sysblk_regs (w : world) (i : nat) : option regs_ptr :=
  match host_mem w !! i with Some _ => Some (HOST i) | None => None end.

(** [p->hostregs] and [p->guestregs]. *)
Definition hostregs (p : regs_ptr) : regs_ptr := HOST (slot p).
Definition guestregs (p : regs_ptr) : regs_ptr := GUEST (slot p).

Definition with_sysblk (f : SYSBLK -> SYSBLK) (w : world) : world :=
  {| sysblk := f (sysblk w); host_mem := host_mem w; guest_mem := guest_mem w |}.

Definition set_sync_mask (m : Z) (s : SYSBLK) : SYSBLK :=
  {| hicpu := hicpu s; started_mask := started_mask s;
     waiting_mask := waiting_mask s; sync_mask := m;
     syncing := syncing s; intowner := intowner s |}.

Definition set_syncing (b : bool) (s : SYSBLK) : SYSBLK :=
  {| hicpu := hicpu s; started_mask := started_mask s;
     waiting_mask := waiting_mask s; sync_mask := sync_mask s;
     syncing := b; intowner := intowner s |}.

Definition set_intowner (o : lock_owner) (s : SYSBLK) : SYSBLK :=
  {| hicpu := hicpu s; started_mask := started_mask s;
     waiting_mask := waiting_mask s; sync_mask := sync_mask s;
     syncing := syncing s; intowner := o |}.

(** The processor of slot [i] is registered. *)
Definition registered (w : world) (i : nat) : Prop := is_Some (host_mem w !! i).

(** ** Threading primitives as events *)

Inductive cond := sync_cond | sync_bc_cond | intcond (p : regs_ptr).

Inductive event :=
| obtain_lock
| release_lock
| signal_condition (c : cond)
| broadcast_condition (c : cond)
| wait_condition (c : cond).

(** What the other threads did to the shared storage while the caller
    was blocked in a primitive. *)
Definition interference := world -> world.

Inductive outcome :=
| Returned (w : world) (tr : list event)
| Parked (w : world) (tr : list event)
| Fault
| OutOfFuel.

(** The wake signal [wakeup_cpu] issues for the processor of slot [i]. *)
Definition wake (i : nat) : event := signal_condition (intcond (HOST i)).

(** ** Wake-up dispatch *)

(** [wakeup_cpu]: signal the processor's own condition.  Called on a
    null pointer it faults. *)
Definition wakeup_cpu (regs : option regs_ptr) (w : world) (tr : list event)
  : outcome :=
  match regs with
  | Some p => Returned w (tr ++ [signal_condition (intcond p)])
  | None => Fault
  end.

(** The test of [wakeup_cpu_mask] that decides whether the record under
    examination replaces the selection; [None] when it reads through a
    dangling [lru_regs]. *)
Definition lru_replace (w : world) (lru : option (regs_ptr * TOD))
    (current_regs : REGS) : option bool :=
  match lru with
  | None => Some true
  | Some (lru_regs, lru_waittod) =>
      let current_waittod := waittod current_regs in
      if (0 <? current_waittod)%N then
        if (current_waittod <? lru_waittod)%N then Some true
        else if (current_waittod =? lru_waittod)%N then
          match deref w lru_regs with
          | Some l => Some (waittime l <=? waittime current_regs)%N
          | None => None
          end
        else Some false
      else Some false
  end.

Inductive scan (A : Type) :=
| Scanned (a : A)
| ScanFault
| ScanOutOfFuel.
Arguments Scanned {A} a.
Arguments ScanFault {A}.
Arguments ScanOutOfFuel {A}.

(** The loop [for (i=0; mask; mask >>= 1, ++i)] of [wakeup_cpu_mask];
    [lru] is [lru_regs] with [lru_waittod], [None] while [lru_regs] is
    null. *)
Fixpoint wakeup_cpu_scan (fuel : nat) (w : world) (mask : Z) (i : nat)
    (lru : option (regs_ptr * TOD)) : scan (option (regs_ptr * TOD)) :=
  if mask =? 0 then Scanned lru else
  match fuel with
  | O => ScanOutOfFuel
  | S fuel' =>
      if negb (Z.land mask 1 =? 0) then
        match sysblk_regs w i with
        | None => ScanFault
        | Some current =>
            match deref w current with
            | None => ScanFault
            | Some current_regs =>
                match lru_replace w lru current_regs with
                | None => ScanFault
                | Some true =>
                    wakeup_cpu_scan fuel' w (Z.shiftr mask 1) (S i)
                      (Some (current, waittod current_regs))
                | Some false =>
                    wakeup_cpu_scan fuel' w (Z.shiftr mask 1) (S i) lru
                end
            end
        end
      else wakeup_cpu_scan fuel' w (Z.shiftr mask 1) (S i) lru
  end.

Definition wakeup_cpu_mask (mask : Z) (w : world) : outcome :=
  if negb (mask =? 0) then
    match wakeup_cpu_scan (Z.to_nat CPU_BITMAP_BITS) w mask 0 None with
    | Scanned lru => wakeup_cpu (fst <$> lru) w []
    | ScanFault => Fault
    | ScanOutOfFuel => OutOfFuel
    end
  else Returned w [].

(** The loop of [wakeup_cpus_mask]. *)
Fixpoint wakeup_cpus_scan (fuel : nat) (w : world) (mask : Z) (i : nat)
    (tr : list event) : outcome :=
  if mask =? 0 then Returned w tr else
  match fuel with
  | O => OutOfFuel
  | S fuel' =>
      if negb (Z.land mask 1 =? 0) then
        match wakeup_cpu (sysblk_regs w i) w tr with
        | Returned w' tr' => wakeup_cpus_scan fuel' w' (Z.shiftr mask 1) (S i) tr'
        | o => o
        end
      else wakeup_cpus_scan fuel' w (Z.shiftr mask 1) (S i) tr
  end.

Definition wakeup_cpus_mask (mask : Z) (w : world) : outcome :=
  wakeup_cpus_scan (Z.to_nat CPU_BITMAP_BITS) w mask 0 [].

(** ** The processor loop's interface *)

(** The macros [AT_SYNCPOINT], [ON_IC_INTERRUPT] and [SIE_MODE] belong
    to the processor execution loop and are not defined in hinlines.h:
    the query "is this processor at a safe stop point", the operation
    "mark an interrupt pending" and the test "does this processor run a
    nested guest". *)
Class ProcessorLoop := {
  AT_SYNCPOINT : REGS -> bool;
  ON_IC_INTERRUPT : REGS -> REGS;
  SIE_MODE : REGS -> bool
}.

(** ** The interrupt lock *)

(** The loop [while (sysblk.syncing)] of [Obtain_Interrupt_Lock] and the
    two stores after it, entered with the lock held. *)
Fixpoint Obtain_Interrupt_Lock_loop (regs : regs_ptr) (sched : list interference)
    (w : world) (tr : list event) : outcome :=
  match deref w regs, deref w (hostregs regs) with
  | Some _, Some h =>
      if syncing (sysblk w) then
        let m := Z.land (sync_mask (sysblk w)) (bnot (cpubit h)) in
        let w1 := with_sysblk (set_sync_mask m) w in
        let tr1 := tr ++ (if m =? 0 then [signal_condition sync_cond] else [])
                      ++ [wait_condition sync_bc_cond] in
        match sched with
        | [] => Parked w1 tr1
        | f :: sched' => Obtain_Interrupt_Lock_loop regs sched' (f w1) tr1
        end
      else
        Returned
          (with_sysblk (set_intowner (LOCK_OWNER_CPU (cpuad h)))
             (store (hostregs regs) (set_intwait false h) w))
          tr
  | _, _ => Fault
  end.

Definition Obtain_Interrupt_Lock (regs : option regs_ptr)
    (sched : list interference) (w : world) : outcome :=
  match regs with
  | Some p =>
      match deref w p, deref w (hostregs p) with
      | Some _, Some h =>
          let w1 := store (hostregs p) (set_intwait true h) w in
          match sched with
          | [] => Parked w1 [obtain_lock]
          | f :: sched' => Obtain_Interrupt_Lock_loop p sched' (f w1) [obtain_lock]
          end
      | _, _ => Fault
      end
  | None =>
      match sched with
      | [] => Parked w [obtain_lock]
      | f :: _ =>
          Returned (with_sysblk (set_intowner LOCK_OWNER_OTHER) (f w)) [obtain_lock]
      end
  end.

(** [Release_Interrupt_Lock]: [regs] is unreferenced. *)
Definition Release_Interrupt_Lock (regs : option regs_ptr) (w : world) : outcome :=
  Returned (with_sysblk (set_intowner LOCK_OWNER_NONE) w) [release_lock].

(** ** The synchronisation barrier *)

Section Barrier.
Context `{ProcessorLoop}.

(** The loop [for (i=0; mask && i < sysblk.hicpu; ++i)] of
    [synchronize_cpus], with [k] iterations left before [i] reaches
    [sysblk.hicpu].  [None] when it reads through a null pointer. *)
Fixpoint synchronize_scan (k : nat) (i : nat) (mask : Z) (n : Z) (w : world)
  : option (Z * Z * world) :=
  match k with
  | O => Some (mask, n, w)
  | S k' =>
      if mask =? 0 then Some (mask, n, w) else
      let i_regs := sysblk_regs w i in
      if negb (Z.land mask (CPU_BIT i) =? 0) then
        match i_regs with
        | None => None
        | Some p =>
            match deref w p with
            | None => None
            | Some r =>
                if AT_SYNCPOINT r then
                  synchronize_scan k' (S i) (Z.lxor mask (CPU_BIT i)) n w
                else
                  let w1 := store p (ON_IC_INTERRUPT r) w in
                  if SIE_MODE (ON_IC_INTERRUPT r) then
                    match deref w1 (guestregs p) with
                    | None => None
                    | Some g =>
                        synchronize_scan k' (S i) mask (n + 1)
                          (store (guestregs p) (ON_IC_INTERRUPT g) w1)
                    end
                  else synchronize_scan k' (S i) mask (n + 1) w1
            end
        end
      else synchronize_scan k' (S i) mask n w
  end.

(** The mask [synchronize_cpus] starts from: the started processors
    without the waiting ones and without the caller. *)
Definition synchronize_candidates (w : world) (self : REGS) : Z :=
  Z.land (started_mask (sysblk w))
         (bnot (Z.lor (waiting_mask (sysblk w)) (cpubit self))).

Definition synchronize_cpus (regs : regs_ptr) (sched : list interference)
    (w : world) : outcome :=
  match deref w regs, deref w (hostregs regs) with
  | Some _, Some h =>
      match synchronize_scan (hicpu (sysblk w)) 0 (synchronize_candidates w h) 0 w with
      | None => Fault
      | Some (mask, n, w1) =>
          if negb (n =? 0) && negb (mask =? 0) then
            let w2 :=
              with_sysblk
                (fun s => set_intowner LOCK_OWNER_NONE
                            (set_syncing true (set_sync_mask mask s))) w1 in
            match sched with
            | [] => Parked w2 [wait_condition sync_cond]
            | f :: _ =>
                let w3 := f w2 in
                match deref w3 regs, deref w3 (hostregs regs) with
                | Some _, Some h' =>
                    Returned
                      (with_sysblk
                         (fun s => set_syncing false
                                     (set_intowner (LOCK_OWNER_CPU (cpuad h')) s)) w3)
                      [wait_condition sync_cond; broadcast_condition sync_bc_cond]
                | _, _ => Fault
                end
            end
          else Returned w1 []
      end
  | _, _ => Fault
  end.

(** The processor of slot [i] is at a safe stop point. *)
Definition at_syncpoint (w : world) (i : nat) : bool :=
  match host_mem w !! i with
  | Some r => AT_SYNCPOINT r
  | None => false
  end.

(** The processor of slot [i] is a candidate that has to be driven to a
    stop point. *)
Definition outstanding (mask : Z) (w : world) (i : nat) : bool :=
  is_candidate mask i && negb (at_syncpoint w i).

(** The processor of slot [i] runs a nested guest, as [synchronize_cpus]
    tests it: after the interrupt has been marked on the host. *)
Definition runs_guest (w : world) (i : nat) : bool :=
  match host_mem w !! i with
  | Some r => SIE_MODE (ON_IC_INTERRUPT r)
  | None => false
  end.

(** The structures the scan reads through exist: every candidate among
    the [k] slots from [i] on is registered, and has a guest structure
    if it has to be marked and runs a guest. *)
Definition scan_ready (mask : Z) (w : world) (i k : nat) : Prop :=
  forall j, in_span i k j = true -> is_candidate mask j = true ->
            registered w j /\
            (outstanding mask w j = true -> runs_guest w j = true ->
             is_Some (guest_mem w !! j)).

(** What a scan of the [k] slots from [i] on leaves behind. *)
Definition scan_result (mask : Z) (n : Z) (w : world) (i k : nat)
    (mask' n' : Z) (w' : world) : Prop :=
  sysblk w' = sysblk w /\
  (forall j, is_candidate mask' j =
             is_candidate mask j && negb (in_span i k j && at_syncpoint w j)) /\
  n' = n + Z.of_nat (length (List.filter (outstanding mask w) (seq i k))) /\
  (forall j, host_mem w' !! j =
             if in_span i k j && outstanding mask w j
             then ON_IC_INTERRUPT <$> host_mem w !! j
             else host_mem w !! j) /\
  (forall j, guest_mem w' !! j =
             if in_span i k j && outstanding mask w j && runs_guest w j
             then ON_IC_INTERRUPT <$> guest_mem w !! j
             else guest_mem w !! j).

End Barrier.

(** ** Notions the statements use *)

(** *** Wake-up dispatch *)

(** [f] is the lowest set bit of the mask, the first record the loop
    examines. *)
Definition first_candidate (mask : Z) (f : nat) : Prop :=
  is_candidate mask f = true /\
  forall j, (j < f)%nat -> is_candidate mask j = false.

(** The record [r1] of slot [j1] is at least as good a choice as [r2] of
    slot [j2]: it started waiting earlier; or at the same time, and has
    waited longer in total; or the same on both, and is examined later. *)
Definition lru_le (r1 : REGS) (j1 : nat) (r2 : REGS) (j2 : nat) : Prop :=
  (waittod r1 < waittod r2)%N \/
  (waittod r1 = waittod r2 /\
   ((waittime r2 < waittime r1)%N \/
    (waittime r2 = waittime r1 /\ (j2 <= j1)%nat))).

(** What holds of [lru_regs] and [lru_waittod] when the loop is about to
    examine bit [i]. *)
Definition lru_inv (w : world) (mask : Z) (i : nat)
    (lru : option (regs_ptr * TOD)) : Prop :=
  match lru with
  | None => forall j, (j < i)%nat -> is_candidate mask j = false
  | Some (p, t) =>
      exists j r f rf,
        p = HOST j /\ (j < i)%nat /\ is_candidate mask j = true /\
        host_mem w !! j = Some r /\ t = waittod r /\
        first_candidate mask f /\ host_mem w !! f = Some rf /\
        (waittod rf = 0%N -> j = f) /\
        (waittod rf <> 0%N ->
         waittod r <> 0%N /\
         forall j' r', (j' < i)%nat -> is_candidate mask j' = true ->
                       host_mem w !! j' = Some r' -> waittod r' <> 0%N ->
                       lru_le r j r' j')
  end.

(** Every bit of the mask names a registered processor. *)
Definition mask_registered (mask : Z) (w : world) : Prop :=
  forall j, is_candidate mask j = true -> registered w j.

(** The claim "[wakeup_cpu_mask] wakes exactly one processor, the one
    with the smallest nonzero [waittod], preferring on a tie the larger
    [waittime]", as a property of a call. *)
Definition wakes_lru (mask : Z) (w : world) : Prop :=
  exists j r,
    wakeup_cpu_mask mask w = Returned w [wake j] /\
    is_candidate mask j = true /\ host_mem w !! j = Some r /\
    waittod r <> 0%N /\
    forall j' r', is_candidate mask j' = true -> host_mem w !! j' = Some r' ->
                  waittod r' <> 0%N ->
                  (waittod r <= waittod r')%N /\
                  (waittod r' = waittod r -> (waittime r' <= waittime r)%N).

(** *** The interrupt lock *)


(** What [Obtain_Interrupt_Lock_loop] does to the pending mask and which
    primitives it calls in one turn of the loop. *)
Definition own_bit_removed (w : world) (h : REGS) : world :=
  with_sysblk (set_sync_mask (Z.land (sync_mask (sysblk w)) (bnot (cpubit h)))) w.

Definition barrier_turn_events (w : world) (h : REGS) : list event :=
  (if Z.land (sync_mask (sysblk w)) (bnot (cpubit h)) =? 0
   then [signal_condition sync_cond] else [])
  ++ [wait_condition sync_bc_cond].



(** The requester holds the lock: [intowner] names it. *)
Definition holds_lock (regs : option regs_ptr) (w : world) : Prop :=
  match regs with
  | Some p =>
      exists h, deref w (hostregs p) = Some h /\
                intowner (sysblk w) = LOCK_OWNER_CPU (cpuad h)
  | None => intowner (sysblk w) = LOCK_OWNER_OTHER
  end.

(** The claim "a release by a requester that does not hold the lock is
    flagged, not silently tolerated", as a property of a call. *)
Definition release_checks_owner (regs : option regs_ptr) (w : world) : Prop :=
  ~ holds_lock regs w -> Release_Interrupt_Lock regs w = Fault.

(** *** The invariant of the pending mask *)

(** [sync_mask] is empty whenever [syncing] is off. *)
Definition barrier_inv (w : world) : Prop :=
  syncing (sysblk w) = false -> sync_mask (sysblk w) = 0.

(** The world an outcome is observed in satisfies a property. *)
Definition observed (P : world -> Prop) (o : outcome) : Prop :=
  match o with
  | Returned w _ => P w
  | Parked w _ => P w
  | Fault => True
  | OutOfFuel => True
  end.

(** ** Sample configurations *)

(** A host record of slot [i] that started waiting at [tod] and has
    waited [time] in total. *)
Definition waiting_regs (i : nat) (tod time : TOD) : REGS :=
  {| cpuad := Z.of_nat i; cpubit := CPU_BIT i; intwait := false;
     waittod := tod; waittime := time; sie_mode := false; ints_state := 0 |}.

Definition idle_sysblk : SYSBLK :=
  {| hicpu := 3; started_mask := 7; waiting_mask := 7; sync_mask := 0;
     syncing := false; intowner := LOCK_OWNER_NONE |}.

Definition world_of_hosts (hosts : gmap nat REGS) : world :=
  {| sysblk := idle_sysblk; host_mem := hosts; guest_mem := ∅ |}.

(** Three processors that started waiting at 5, 2 and 9. *)
Definition lru_world_5_2_9 : world :=
  world_of_hosts (<[0%nat := waiting_regs 0 5%N 0%N]>
                 (<[1%nat := waiting_regs 1 2%N 0%N]>
                 (<[2%nat := waiting_regs 2 9%N 0%N]> ∅))).

(** Two processors that started waiting at 3, one with 100 and one
    with 50 of accumulated wait time, in both orders. *)
Definition lru_world_tie_100_50 : world :=
  world_of_hosts (<[0%nat := waiting_regs 0 3%N 100%N]>
                 (<[1%nat := waiting_regs 1 3%N 50%N]> ∅)).

Definition lru_world_tie_50_100 : world :=
  world_of_hosts (<[0%nat := waiting_regs 0 3%N 50%N]>
                 (<[1%nat := waiting_regs 1 3%N 100%N]> ∅)).

(** Two processors, neither with a wait timestamp. *)
Definition lru_world_all_zero : world :=
  world_of_hosts (<[0%nat := waiting_regs 0 0%N 0%N]>
                 (<[1%nat := waiting_regs 1 0%N 0%N]> ∅)).

(** Processor 0 has no wait timestamp, processor 1 started waiting at 5. *)
Definition lru_world_zero_first : world :=
  world_of_hosts (<[0%nat := waiting_regs 0 0%N 0%N]>
                 (<[1%nat := waiting_regs 1 5%N 0%N]> ∅)).

(** Processor 0 has no wait timestamp; processors 1 and 2 are tied on
    both their wait timestamp and their accumulated wait time. *)
Definition lru_world_zero_then_tie : world :=
  world_of_hosts (<[0%nat := waiting_regs 0 0%N 0%N]>
                 (<[1%nat := waiting_regs 1 3%N 7%N]>
                 (<[2%nat := waiting_regs 2 3%N 7%N]> ∅))).

Definition set_ints_state (v : Z) (r : REGS) : REGS :=
  {| cpuad := cpuad r; cpubit := cpubit r; intwait := intwait r;
     waittod := waittod r; waittime := waittime r;
     sie_mode := sie_mode r; ints_state := v |}.

Definition IC_INTERRUPT : Z := 0x80000000.

(** A processor loop for the samples: a processor is at a safe stop
    point when its [intwait] is set, an interrupt is marked pending in
    [ints_state], and [sie_mode] tells whether it runs a guest. *)
Definition sample_loop : ProcessorLoop :=
  {| AT_SYNCPOINT := intwait;
     ON_IC_INTERRUPT := fun r => set_ints_state (Z.lor (ints_state r) IC_INTERRUPT) r;
     SIE_MODE := sie_mode |}.

Definition running_regs (i : nat) (stopped guest : bool) : REGS :=
  {| cpuad := Z.of_nat i; cpubit := CPU_BIT i; intwait := stopped;
     waittod := 0%N; waittime := 0%N; sie_mode := guest; ints_state := 0 |}.

(** Five processors are started.  Processor 0 holds the lock;
    processors 1 and 2 run, processor 2 with a guest; processor 3 is
    waiting; processor 4 is blocked on the lock, at a safe stop point. *)
Definition barrier_world : world :=
  {| sysblk := {| hicpu := 5; started_mask := 31; waiting_mask := 8;
                  sync_mask := 0; syncing := false;
                  intowner := LOCK_OWNER_CPU 0 |};
     host_mem := <[0%nat := running_regs 0 false false]>
                (<[1%nat := running_regs 1 false false]>
                (<[2%nat := running_regs 2 false true]>
                (<[3%nat := running_regs 3 false false]>
                (<[4%nat := running_regs 4 true false]> ∅))));
     guest_mem := <[2%nat := running_regs 2 false false]> ∅ |}.

(** The same, where processors 1 and 2 are at a safe stop point too. *)
Definition quiet_world : world :=
  {| sysblk := sysblk barrier_world;
     host_mem := <[0%nat := running_regs 0 false false]>
                (<[1%nat := running_regs 1 true false]>
                (<[2%nat := running_regs 2 true true]>
                (<[3%nat := running_regs 3 false false]>
                (<[4%nat := running_regs 4 true false]> ∅))));
     guest_mem := guest_mem barrier_world |}.


(** Nothing happened to the shared storage while the caller was blocked:
    it was woken, or given the lock, with the storage as it left it. *)
Definition undisturbed : interference := fun w => w.

(** The barrier's owner resumed and finished while the caller was
    blocked. *)
Definition barrier_resolved : interference :=
  with_sysblk (fun s => set_syncing false (set_intowner LOCK_OWNER_NONE s)).

(** ** Facts about bits *)

Lemma land_1_eqb (m : Z) : (Z.land m 1 =? 0) = negb (Z.testbit m 0).
Proof.
  change 1 with (Z.ones 1). rewrite Z.land_ones by lia.
  rewrite Z.bit0_eqb. change (2 ^ 1) with 2.
  pose proof (Z.mod_pos_bound m 2 ltac:(lia)).
  destruct (Z.eqb_spec (m mod 2) 0), (Z.eqb_spec (m mod 2) 1); simpl; lia.
Qed.

Lemma shiftr_bit0 (m : Z) (i : nat) :
  Z.testbit (Z.shiftr m (Z.of_nat i)) 0 = is_candidate m i.
Proof. unfold is_candidate. rewrite Z.shiftr_spec by lia. f_equal. Qed.

Lemma shiftr_succ (m : Z) (i : nat) :
  Z.shiftr (Z.shiftr m (Z.of_nat i)) 1 = Z.shiftr m (Z.of_nat (S i)).
Proof. rewrite Z.shiftr_shiftr by lia. f_equal. lia. Qed.

Lemma shiftr_0_no_candidate (m : Z) (i j : nat) :
  Z.shiftr m (Z.of_nat i) = 0 -> (i <= j)%nat -> is_candidate m j = false.
Proof.
  intros Hz Hij. unfold is_candidate.
  replace (Z.of_nat j) with (Z.of_nat (j - i) + Z.of_nat i) by lia.
  rewrite <- Z.shiftr_spec by lia. rewrite Hz. apply Z.testbit_0_l.
Qed.

Lemma in_range_shiftr (m : Z) :
  in_range m -> Z.shiftr m CPU_BITMAP_BITS = 0.
Proof.
  intros [Hlo Hhi]. rewrite Z.shiftr_div_pow2 by (unfold CPU_BITMAP_BITS; lia).
  apply Z.div_small. lia.
Qed.

Lemma bits_from_none (m : Z) (i k : nat) :
  Z.shiftr m (Z.of_nat i) = 0 -> bits_from m i k = [].
Proof.
  intros Hz. unfold bits_from. revert i Hz.
  induction k as [|k IH]; intros i Hz; simpl; [reflexivity|].
  rewrite (shiftr_0_no_candidate m i i Hz) by lia.
  apply IH. rewrite <- shiftr_succ, Hz. reflexivity.
Qed.

Lemma bits_from_cons (m : Z) (i k : nat) :
  bits_from m i (S k) =
  (if is_candidate m i then [i] else []) ++ bits_from m (S i) k.
Proof. unfold bits_from. simpl. destruct (is_candidate m i); reflexivity. Qed.

Lemma in_bits_from (m : Z) (i k j : nat) :
  In j (bits_from m i k) <-> (i <= j < i + k)%nat /\ is_candidate m j = true.
Proof.
  unfold bits_from. rewrite filter_In, in_seq. tauto.
Qed.

Lemma in_set_bits (m : Z) (j : nat) :
  in_range m -> (In j (set_bits m) <-> is_candidate m j = true).
Proof.
  intros Hr. unfold set_bits. rewrite in_bits_from. split; [tauto|].
  intros Hc. split; [|exact Hc].
  destruct (Nat.lt_ge_cases j (Z.to_nat CPU_BITMAP_BITS)) as [Hlt|Hge]; [lia|].
  rewrite (shiftr_0_no_candidate m (Z.to_nat CPU_BITMAP_BITS) j) in Hc;
    [discriminate| |exact Hge].
  rewrite Z2Nat.id by (unfold CPU_BITMAP_BITS; lia). apply in_range_shiftr, Hr.
Qed.

Lemma wrap_testbit (x n : Z) :
  Z.testbit (wrap x) n = (n <? CPU_BITMAP_BITS) && Z.testbit x n.
Proof.
  unfold wrap. destruct (Z.ltb_spec n CPU_BITMAP_BITS) as [Hlt|Hge]; simpl.
  - destruct (Z.neg_nonneg_cases n) as [Hneg|Hpos].
    + rewrite !Z.testbit_neg_r by lia. reflexivity.
    + apply Z.mod_pow2_bits_low. lia.
  - apply Z.mod_pow2_bits_high. unfold CPU_BITMAP_BITS in *. lia.
Qed.

Lemma bnot_testbit (x n : Z) :
  0 <= n -> Z.testbit (bnot x) n = (n <? CPU_BITMAP_BITS) && negb (Z.testbit x n).
Proof.
  intros Hn. unfold bnot. rewrite wrap_testbit, Z.lnot_spec by exact Hn. reflexivity.
Qed.

Lemma CPU_BIT_testbit (i : nat) (n : Z) :
  0 <= n ->
  Z.testbit (CPU_BIT i) n = (n =? Z.of_nat i) && (Z.of_nat i <? CPU_BITMAP_BITS).
Proof.
  intros Hn. unfold CPU_BIT. rewrite wrap_testbit, Z.shiftl_1_l.
  rewrite Z.pow2_bits_eqb by lia. rewrite (Z.eqb_sym (Z.of_nat i) n).
  destruct (Z.eqb_spec n (Z.of_nat i)) as [->|]; simpl.
  - rewrite andb_true_r. reflexivity.
  - rewrite andb_false_r. reflexivity.
Qed.

Lemma land_wrap_low (a b : Z) : low_mask (Z.land a (wrap b)).
Proof.
  intros j Hj. unfold is_candidate. rewrite Z.land_spec, wrap_testbit.
  destruct (Z.ltb_spec (Z.of_nat j) CPU_BITMAP_BITS); [lia|].
  simpl. apply andb_false_r.
Qed.

Lemma candidate_test (mask : Z) (i : nat) :
  low_mask mask ->
  (Z.land mask (CPU_BIT i) =? 0) = negb (is_candidate mask i).
Proof.
  intros Hlow. destruct (Z.eqb_spec (Z.land mask (CPU_BIT i)) 0) as [Hz|Hnz].
  - destruct (is_candidate mask i) eqn:Hc; [|reflexivity]. exfalso.
    assert (Hi : Z.of_nat i < CPU_BITMAP_BITS).
    { destruct (Z.lt_ge_cases (Z.of_nat i) CPU_BITMAP_BITS) as [|Hge]; [assumption|].
      rewrite (Hlow i Hge) in Hc. discriminate. }
    assert (Hbit : Z.testbit (Z.land mask (CPU_BIT i)) (Z.of_nat i) = true).
    { rewrite Z.land_spec, CPU_BIT_testbit by lia. unfold is_candidate in Hc.
      rewrite Hc, Z.eqb_refl. simpl. apply Z.ltb_lt, Hi. }
    rewrite Hz, Z.testbit_0_l in Hbit. discriminate.
  - destruct (is_candidate mask i) eqn:Hc; [reflexivity|]. exfalso. apply Hnz.
    apply Z.bits_inj_0. intros n. destruct (Z.neg_nonneg_cases n) as [Hneg|Hpos].
    + apply Z.testbit_neg_r, Hneg.
    + rewrite Z.land_spec, CPU_BIT_testbit by exact Hpos.
      destruct (Z.eqb_spec n (Z.of_nat i)) as [->|]; simpl.
      * unfold is_candidate in Hc. rewrite Hc. reflexivity.
      * apply andb_false_r.
Qed.

Lemma lxor_CPU_BIT_candidate (mask : Z) (i j : nat) :
  is_candidate mask i = true -> Z.of_nat i < CPU_BITMAP_BITS ->
  is_candidate (Z.lxor mask (CPU_BIT i)) j =
  is_candidate mask j && negb (Nat.eqb j i).
Proof.
  intros Hc Hi. unfold is_candidate in *.
  rewrite Z.lxor_spec, CPU_BIT_testbit by lia.
  destruct (Nat.eqb_spec j i) as [->|Hne].
  - rewrite Z.eqb_refl, Hc. simpl.
    destruct (Z.ltb_spec (Z.of_nat i) CPU_BITMAP_BITS); [reflexivity|lia].
  - destruct (Z.eqb_spec (Z.of_nat j) (Z.of_nat i)); [lia|]. simpl.
    rewrite xorb_false_r, andb_true_r. reflexivity.
Qed.

Lemma in_span_0 (i j : nat) : in_span i 0 j = false.
Proof.
  unfold in_span. destruct (Nat.leb_spec i j), (Nat.ltb_spec j (i + 0)); simpl; lia.
Qed.

Lemma in_span_S (i k j : nat) :
  in_span i (S k) j = Nat.eqb j i || in_span (S i) k j.
Proof.
  unfold in_span.
  destruct (Nat.leb_spec i j), (Nat.ltb_spec j (i + S k)), (Nat.eqb_spec j i),
    (Nat.leb_spec (S i) j), (Nat.ltb_spec j (S i + k)); simpl; lia.
Qed.

Lemma in_span_seq (i k j : nat) : In j (seq i k) -> in_span i k j = true.
Proof.
  rewrite in_seq. intros Hj. unfold in_span.
  destruct (Nat.leb_spec i j), (Nat.ltb_spec j (i + k)); simpl; lia.
Qed.

Lemma filter_none {A : Type} (f : A -> bool) (l : list A) :
  (forall x, In x l -> f x = false) -> List.filter f l = [].
Proof.
  induction l as [|a l IH]; intros Hall; [reflexivity|]. simpl.
  rewrite (Hall a) by (left; reflexivity). apply IH.
  intros x Hx. apply Hall. right. exact Hx.
Qed.



(** ** [wakeup_cpus_mask] *)

Lemma wakeup_cpus_scan_trace (w : world) (m : Z) (k : nat) :
  forall (i : nat) (tr : list event),
    (forall j, is_candidate m j = true -> registered w j) ->
    Z.shiftr m (Z.of_nat (i + k)) = 0 ->
    wakeup_cpus_scan k w (Z.shiftr m (Z.of_nat i)) i tr =
    Returned w (tr ++ map wake (bits_from m i k)).
Proof.
  induction k as [|k IH]; intros i tr Hreg Hend.
  - replace (i + 0)%nat with i in Hend by lia. simpl. rewrite Hend. simpl.
    rewrite app_nil_r. reflexivity.
  - simpl. destruct (Z.eqb_spec (Z.shiftr m (Z.of_nat i)) 0) as [Hz|Hnz].
    + rewrite bits_from_none by exact Hz. simpl. rewrite app_nil_r. reflexivity.
    + rewrite land_1_eqb, negb_involutive, shiftr_bit0, shiftr_succ, bits_from_cons.
      replace (i + S k)%nat with (S i + k)%nat in Hend by lia.
      destruct (is_candidate m i) eqn:Hc.
      * destruct (Hreg i Hc) as [r Hr]. unfold sysblk_regs. rewrite Hr. simpl.
        rewrite IH by assumption. rewrite <- app_assoc. reflexivity.
      * rewrite IH by assumption. reflexivity.
Qed.

Lemma bits_from_shift_length (m : Z) (k : nat) :
  forall i, length (bits_from m (S i) k) = length (bits_from (Z.shiftr m 1) i k).
Proof.
  induction k as [|k IH]; intros i; [reflexivity|].
  rewrite !bits_from_cons, !length_app, IH. f_equal.
  assert (Hc : is_candidate m (S i) = is_candidate (Z.shiftr m 1) i).
  { unfold is_candidate. rewrite Z.shiftr_spec by lia. f_equal. lia. }
  rewrite Hc. destruct (is_candidate (Z.shiftr m 1) i); reflexivity.
Qed.

Lemma pos_bits_length (p : positive) :
  forall k : nat, Zpos p < 2 ^ Z.of_nat k ->
                  length (bits_from (Zpos p) 0 k) = pos_popcount p.
Proof.
  induction p as [q IH|q IH|]; intros k Hlt.
  - destruct k as [|k]; [simpl in Hlt; lia|].
    rewrite bits_from_cons, length_app, bits_from_shift_length.
    change (Z.shiftr (Zpos q~1) 1) with (Zpos q).
    change (is_candidate (Zpos q~1) 0) with true. simpl.
    f_equal. apply IH. rewrite Nat2Z.inj_succ, Z.pow_succ_r in Hlt; lia.
  - destruct k as [|k]; [simpl in Hlt; lia|].
    rewrite bits_from_cons, length_app, bits_from_shift_length.
    change (Z.shiftr (Zpos q~0) 1) with (Zpos q).
    change (is_candidate (Zpos q~0) 0) with false. simpl.
    apply IH. rewrite Nat2Z.inj_succ, Z.pow_succ_r in Hlt; lia.
  - destruct k as [|k]; [simpl in Hlt; lia|].
    rewrite bits_from_cons, length_app, bits_from_shift_length.
    change (Z.shiftr 1 1) with 0. change (is_candidate 1 0) with true.
    rewrite bits_from_none by apply Z.shiftr_0_l. reflexivity.
Qed.

Lemma set_bits_length (mask : Z) :
  in_range mask -> length (set_bits mask) = popcount mask.
Proof.
  intros [Hlo Hhi]. unfold set_bits. destruct mask as [|p|p]; [| |lia].
  - rewrite bits_from_none by reflexivity. reflexivity.
  - simpl popcount. apply pos_bits_length.
    rewrite Z2Nat.id by (unfold CPU_BITMAP_BITS; lia). exact Hhi.
Qed.

Lemma bits_from_NoDup (m : Z) (i k : nat) : List.NoDup (bits_from m i k).
Proof. unfold bits_from. apply List.NoDup_filter, List.seq_NoDup. Qed.

(** ** [wakeup_cpu_mask] *)

(** Closes the first seven conjuncts of [lru_inv] and splits the rest. *)
Ltac lru_inv_fields :=
  do 7 (split; [solve [assumption | lia | reflexivity]|]);
  split; [solve [assumption | lia | intros; contradiction | reflexivity]|].

Lemma lru_inv_skip (w : world) (mask : Z) (i : nat) lru :
  lru_inv w mask i lru -> is_candidate mask i = false ->
  lru_inv w mask (S i) lru.
Proof.
  intros Hinv Hc. destruct lru as [[p t]|]; simpl in *.
  - destruct Hinv as (j & r & f & rf & Hp & Hj & Hcj & Hr & Ht & Hf & Hrf & Hz & Hnz).
    exists j, r, f, rf. lru_inv_fields.
    intros Hrfnz. destruct (Hnz Hrfnz) as [Hrnz Hall]. split; [exact Hrnz|].
    intros j' r' Hj' Hc' Hr' Hw'. apply Hall; try assumption.
    destruct (Nat.eq_dec j' i) as [->|]; [congruence|lia].
  - intros j Hj. destruct (Nat.eq_dec j i) as [->|]; [assumption|apply Hinv; lia].
Qed.

Lemma lru_inv_skip_many (w : world) (mask : Z) (k i : nat) lru :
  lru_inv w mask i lru -> Z.shiftr mask (Z.of_nat i) = 0 ->
  lru_inv w mask (i + k) lru.
Proof.
  intros Hinv Hz. induction k as [|k IH].
  - replace (i + 0)%nat with i by lia. exact Hinv.
  - replace (i + S k)%nat with (S (i + k)) by lia. apply lru_inv_skip; [exact IH|].
    apply (shiftr_0_no_candidate mask i); [exact Hz|lia].
Qed.

Lemma lru_inv_step (w : world) (mask : Z) (i : nat) lru (r : REGS) :
  lru_inv w mask i lru -> is_candidate mask i = true ->
  host_mem w !! i = Some r ->
  exists b, lru_replace w lru r = Some b /\
            lru_inv w mask (S i)
              (if b then Some (HOST i, waittod r) else lru).
Proof.
  intros Hinv Hc Hr. destruct lru as [[p t]|]; simpl in *.
  - destruct Hinv as (j & r0 & f & rf & -> & Hj & Hcj & Hr0 & -> & Hf & Hrf & Hz & Hnz).
    assert (Hkeep : (waittod r0 < waittod r)%N \/
                    (waittod r0 = waittod r /\ (waittime r < waittime r0)%N) \/
                    waittod r = 0%N ->
                    lru_inv w mask (S i) (Some (HOST j, waittod r0))).
    { intros Hcmp. simpl. exists j, r0, f, rf. lru_inv_fields.
      intros Hrfnz. destruct (Hnz Hrfnz) as [Hrnz Hall]. split; [exact Hrnz|].
      intros j' r' Hj' Hc' Hr' Hw'.
      destruct (Nat.eq_dec j' i) as [->|Hne].
      - assert (r' = r) by congruence. subst r'. unfold lru_le. lia.
      - apply Hall; try assumption. lia. }
    assert (Htake : (waittod r <> 0)%N ->
                    (waittod r < waittod r0)%N \/
                    (waittod r = waittod r0 /\ (waittime r0 <= waittime r)%N) ->
                    lru_inv w mask (S i) (Some (HOST i, waittod r))).
    { intros Hpos Hcmp. simpl. exists i, r, f, rf.
      assert (Hrfnz : waittod rf <> 0%N).
      { intros Hrf0. specialize (Hz Hrf0). subst j.
        assert (r0 = rf) by congruence. subst r0. lia. }
      lru_inv_fields.
      intros _. split; [exact Hpos|].
      intros j' r' Hj' Hc' Hr' Hw'.
      destruct (Nat.eq_dec j' i) as [->|Hne].
      - assert (r' = r) by congruence. subst r'. unfold lru_le. lia.
      - destruct (Hnz Hrfnz) as [_ Hall].
        specialize (Hall j' r' ltac:(lia) Hc' Hr' Hw').
        unfold lru_le in *. lia. }
    destruct (N.ltb_spec 0 (waittod r)) as [Hpos|Hzero].
    + destruct (N.ltb_spec (waittod r) (waittod r0)) as [Hlt|Hge].
      * exists true. split; [reflexivity|]. apply Htake; lia.
      * destruct (N.eqb_spec (waittod r) (waittod r0)) as [Heq|Hneq].
        -- unfold deref; rewrite Hr0. destruct (N.leb_spec (waittime r0) (waittime r)) as [Hle|Hgt].
           ++ exists true. split; [reflexivity|]. apply Htake; lia.
           ++ exists false. split; [reflexivity|]. apply Hkeep. lia.
        -- exists false. split; [reflexivity|]. apply Hkeep. lia.
    + exists false. split; [reflexivity|]. apply Hkeep. lia.
  - exists true. split; [reflexivity|]. simpl. exists i, r, i, r.
    assert (Hfirst : first_candidate mask i).
    { split; [exact Hc|]. intros j' Hj'. apply Hinv. exact Hj'. }
    lru_inv_fields.
    intros Hrnz. split; [exact Hrnz|].
    intros j' r' Hj' Hc' Hr' Hw'.
    destruct (Nat.eq_dec j' i) as [->|Hne].
    + assert (r' = r) by congruence. subst r'. unfold lru_le. lia.
    + rewrite Hinv in Hc' by lia. discriminate.
Qed.

Lemma wakeup_cpu_scan_inv (w : world) (m : Z) (k : nat) :
  forall (i : nat) lru,
    (forall j, is_candidate m j = true -> registered w j) ->
    Z.shiftr m (Z.of_nat (i + k)) = 0 ->
    lru_inv w m i lru ->
    exists lru', wakeup_cpu_scan k w (Z.shiftr m (Z.of_nat i)) i lru = Scanned lru' /\
                 lru_inv w m (i + k) lru'.
Proof.
  induction k as [|k IH]; intros i lru Hreg Hend Hinv.
  - replace (i + 0)%nat with i in * by lia. simpl. rewrite Hend. simpl. eauto.
  - simpl. destruct (Z.eqb_spec (Z.shiftr m (Z.of_nat i)) 0) as [Hz|Hnz].
    + exists lru. split; [reflexivity|]. apply lru_inv_skip_many; assumption.
    + rewrite land_1_eqb, negb_involutive, shiftr_bit0, shiftr_succ.
      replace (i + S k)%nat with (S i + k)%nat in * by lia.
      destruct (is_candidate m i) eqn:Hc.
      * destruct (Hreg i Hc) as [r Hr]. unfold sysblk_regs. rewrite Hr. simpl.
        rewrite Hr.
        destruct (lru_inv_step w m i lru r Hinv Hc Hr) as (b & -> & Hinv').
        destruct b; apply IH; assumption.
      * apply IH; try assumption. apply lru_inv_skip; assumption.
Qed.

Lemma no_candidate_zero (m : Z) :
  (forall j, is_candidate m j = false) -> m = 0.
Proof.
  intros Hnone. apply Z.bits_inj_0. intros n.
  destruct (Z.neg_nonneg_cases n) as [Hneg|Hpos].
  - apply Z.testbit_neg_r, Hneg.
  - specialize (Hnone (Z.to_nat n)). unfold is_candidate in Hnone.
    rewrite Z2Nat.id in Hnone by exact Hpos. exact Hnone.
Qed.

Lemma candidate_below_width (m : Z) (j : nat) :
  in_range m -> is_candidate m j = true -> (j < Z.to_nat CPU_BITMAP_BITS)%nat.
Proof.
  intros Hr Hc.
  destruct (Nat.lt_ge_cases j (Z.to_nat CPU_BITMAP_BITS)) as [Hlt|Hge]; [exact Hlt|].
  rewrite (shiftr_0_no_candidate m (Z.to_nat CPU_BITMAP_BITS) j) in Hc;
    [discriminate| |exact Hge].
  rewrite Z2Nat.id by (unfold CPU_BITMAP_BITS; lia). apply in_range_shiftr, Hr.
Qed.

(** Which processor [wakeup_cpu_mask] wakes, in terms of the first
    record examined: a first record with a zero [waittod] is woken
    whatever the others hold; otherwise the woken one is a best choice
    for [lru_le] among the candidates with a nonzero [waittod]. *)
Lemma wakeup_cpu_mask_selects (w : world) (mask : Z) :
  in_range mask -> mask <> 0 ->
  (forall j, is_candidate mask j = true -> registered w j) ->
  exists j r f rf,
    wakeup_cpu_mask mask w = Returned w [wake j] /\
    is_candidate mask j = true /\ host_mem w !! j = Some r /\
    first_candidate mask f /\ host_mem w !! f = Some rf /\
    (waittod rf = 0%N -> j = f) /\
    (waittod rf <> 0%N ->
     waittod r <> 0%N /\
     forall j' r', is_candidate mask j' = true -> host_mem w !! j' = Some r' ->
                   waittod r' <> 0%N -> lru_le r j r' j').
Proof.
  intros Hr Hnz Hreg. unfold wakeup_cpu_mask.
  destruct (Z.eqb_spec mask 0) as [|_]; [contradiction|]. simpl negb. cbv iota.
  destruct (wakeup_cpu_scan_inv w mask (Z.to_nat CPU_BITMAP_BITS) 0 None Hreg)
    as (lru & Hscan & Hinv).
  - simpl Nat.add. rewrite Z2Nat.id by (unfold CPU_BITMAP_BITS; lia).
    apply in_range_shiftr, Hr.
  - simpl. intros j Hj. lia.
  - change (Z.of_nat 0) with 0 in Hscan. rewrite Z.shiftr_0_r in Hscan.
    rewrite Hscan. simpl Nat.add in Hinv.
    destruct lru as [[p t]|]; simpl in Hinv.
    + destruct Hinv as (j & r & f & rf & -> & Hj & Hcj & Hrj & -> & Hf & Hrf & Hz & Hn).
      exists j, r, f, rf. simpl.
      do 5 (split; [solve [assumption | reflexivity]|]).
      split; [exact Hz|].
      intros Hrfnz. destruct (Hn Hrfnz) as [Hrnz Hall]. split; [exact Hrnz|].
      intros j' r' Hc' Hr' Hw'. apply Hall; try assumption.
      apply (candidate_below_width mask); assumption.
    + exfalso. apply Hnz, no_candidate_zero. intros j.
      destruct (is_candidate mask j) eqn:Hc; [|reflexivity].
      rewrite Hinv in Hc; [discriminate|].
      apply (candidate_below_width mask); assumption.
Qed.

Lemma first_candidate_unique (m : Z) (f f' : nat) :
  first_candidate m f -> first_candidate m f' -> f = f'.
Proof.
  intros [Hf Hlow] [Hf' Hlow'].
  destruct (Nat.lt_trichotomy f f') as [Hlt|[Heq|Hgt]]; [|exact Heq|].
  - rewrite (Hlow' f Hlt) in Hf. discriminate.
  - rewrite (Hlow f' Hgt) in Hf'. discriminate.
Qed.

Lemma mask_3_registered (w : world) :
  registered w 0 -> registered w 1 -> mask_registered 3 w.
Proof.
  intros H0 H1 j Hj. destruct j as [|[|j]]; [assumption|assumption|].
  exfalso. unfold is_candidate in Hj.
  rewrite (Z.bits_above_log2 3) in Hj; [discriminate|lia|].
  change (Z.log2 3) with 1. lia.
Qed.

Lemma mask_7_registered (w : world) :
  registered w 0 -> registered w 1 -> registered w 2 -> mask_registered 7 w.
Proof.
  intros H0 H1 H2 j Hj. destruct j as [|[|[|j]]]; [assumption|assumption|assumption|].
  exfalso. unfold is_candidate in Hj.
  rewrite (Z.bits_above_log2 7) in Hj; [discriminate|lia|].
  change (Z.log2 7) with 2. lia.
Qed.

Lemma first_candidate_odd (mask : Z) :
  is_candidate mask 0 = true -> first_candidate mask 0.
Proof. intros Hc. split; [exact Hc|]. intros j Hj. lia. Qed.

(** ** Wake-up dispatch: the properties *)

(** C4 (as amended).  On a non-empty mask of registered processors
    [wakeup_cpu_mask] changes no storage and wakes exactly one
    processor, a candidate of the mask.  When the lowest candidate has a
    nonzero [waittod], the woken processor has the smallest nonzero
    [waittod] of the candidates and, among those tied on it, the largest
    [waittime]; when every candidate has a zero [waittod], the lowest
    candidate is woken.  With wait timestamps 5, 2 and 9 the processor
    with 2 is woken; with two processors tied at 3 and accumulated wait
    times 100 and 50 the one with 100 is woken, in either order. *)
Theorem wakeup_cpu_mask_wakes_lru :
  (forall (mask : Z) (w : world),
      in_range mask -> mask <> 0 -> mask_registered mask w ->
      (exists j, wakeup_cpu_mask mask w = Returned w [wake j] /\
                 is_candidate mask j = true) /\
      (forall f rf, first_candidate mask f -> host_mem w !! f = Some rf ->
                    waittod rf <> 0%N -> wakes_lru mask w) /\
      (forall f,
          first_candidate mask f ->
          (forall j r, is_candidate mask j = true -> host_mem w !! j = Some r ->
                       waittod r = 0%N) ->
          wakeup_cpu_mask mask w = Returned w [wake f])) /\
  wakeup_cpu_mask 7 lru_world_5_2_9 = Returned lru_world_5_2_9 [wake 1] /\
  wakeup_cpu_mask 3 lru_world_tie_100_50 = Returned lru_world_tie_100_50 [wake 0] /\
  wakeup_cpu_mask 3 lru_world_tie_50_100 = Returned lru_world_tie_50_100 [wake 1].
Proof.
  split; [|repeat split; vm_compute; reflexivity].
  intros mask w Hr Hnz Hreg.
  destruct (wakeup_cpu_mask_selects w mask Hr Hnz Hreg)
    as (j & r & f & rf & Hrun & Hcj & Hrj & Hf & Hrf & Hz & Hn).
  split; [exists j; split; assumption|]. split.
  - intros f' rf' Hf' Hrf' Hrfnz.
    assert (f' = f) by (eapply first_candidate_unique; eassumption). subst f'.
    assert (rf' = rf) by congruence. subst rf'.
    destruct (Hn Hrfnz) as [Hrnz Hall].
    exists j, r. do 4 (split; [assumption|]).
    intros j' r' Hc' Hr' Hw'. specialize (Hall j' r' Hc' Hr' Hw').
    unfold lru_le in Hall. lia.
  - intros f' Hf' Hzero.
    assert (f' = f) by (eapply first_candidate_unique; eassumption). subst f'.
    destruct Hf as [Hcf _].
    rewrite <- (Hz (Hzero f rf Hcf Hrf)). exact Hrun.
Qed.

(** The call on the sample with wait timestamps 5, 2 and 9 meets the
    hypotheses of the theorem and selects by the rule. *)
Lemma wakeup_cpu_mask_wakes_lru_witness :
  in_range 7 /\ 7 <> 0 /\ mask_registered 7 lru_world_5_2_9 /\
  first_candidate 7 0 /\
  wakes_lru 7 lru_world_5_2_9.
Proof.
  assert (Hr : in_range 7) by (unfold in_range, CPU_BITMAP_BITS; lia).
  assert (Hnz : 7 <> 0) by lia.
  assert (Hreg : mask_registered 7 lru_world_5_2_9)
    by (apply mask_7_registered; vm_compute; eauto).
  assert (Hf : first_candidate 7 0) by (apply first_candidate_odd; reflexivity).
  split; [exact Hr|]. split; [exact Hnz|]. split; [exact Hreg|].
  split; [exact Hf|].
  exact (proj1 (proj2 (proj1 wakeup_cpu_mask_wakes_lru 7 lru_world_5_2_9 Hr Hnz Hreg))
           0%nat (waiting_regs 0 5%N 0%N) Hf eq_refl ltac:(discriminate)).
Defined.

(** The claim C4 as it is stated fails where no candidate has a nonzero
    [waittod]: a processor is woken all the same. *)
Lemma wakes_lru_fails_all_zero :
  mask_registered 3 lru_world_all_zero /\
  wakeup_cpu_mask 3 lru_world_all_zero = Returned lru_world_all_zero [wake 0] /\
  ~ wakes_lru 3 lru_world_all_zero.
Proof.
  split; [|split; [vm_compute; reflexivity|]].
  - apply mask_3_registered; vm_compute; eauto.
  - intros (j & r & Hrun & Hc & Hr & Hnz & _).
    assert (Hrun' : wakeup_cpu_mask 3 lru_world_all_zero
                    = Returned lru_world_all_zero [wake 0])
      by (vm_compute; reflexivity).
    rewrite Hrun' in Hrun. injection Hrun as <-.
    vm_compute in Hr. injection Hr as <-. apply Hnz. reflexivity.
Qed.

(** C5 (where the code departs from it).  When the first record
    examined has a zero [waittod] it seeds the selection with
    [lru_waittod = 0]; no later [waittod] is below or equal to it, so it
    is the processor woken whatever the other candidates hold.  On the
    sample where processor 0 has no wait timestamp and processor 1
    started waiting at 5, processor 0 is woken. *)
Theorem wakeup_cpu_mask_zero_seed_sticks :
  (forall (mask : Z) (w : world) (f : nat) (rf : REGS),
      in_range mask -> mask_registered mask w ->
      first_candidate mask f -> host_mem w !! f = Some rf ->
      waittod rf = 0%N ->
      wakeup_cpu_mask mask w = Returned w [wake f]) /\
  (is_candidate 3 1 = true /\
   (waittod <$> host_mem lru_world_zero_first !! 1%nat) = Some 5%N /\
   (waittod <$> host_mem lru_world_zero_first !! 0%nat) = Some 0%N /\
   wakeup_cpu_mask 3 lru_world_zero_first = Returned lru_world_zero_first [wake 0]).
Proof.
  split; [|repeat split; vm_compute; reflexivity].
  intros mask w f rf Hr Hreg Hf Hrf Hzero.
  assert (Hnz : mask <> 0).
  { intros ->. destruct Hf as [Hc _]. unfold is_candidate in Hc.
    rewrite Z.testbit_0_l in Hc. discriminate. }
  destruct (wakeup_cpu_mask_selects w mask Hr Hnz Hreg)
    as (j & r & f' & rf' & Hrun & _ & _ & Hf' & Hrf' & Hz & _).
  assert (f' = f) by (eapply first_candidate_unique; eassumption). subst f'.
  assert (rf' = rf) by congruence. subst rf'.
  rewrite <- (Hz Hzero). exact Hrun.
Qed.

(** The sample with a zero first record meets the hypotheses. *)
Lemma wakeup_cpu_mask_zero_seed_sticks_witness :
  in_range 3 /\ mask_registered 3 lru_world_zero_first /\
  first_candidate 3 0 /\
  wakeup_cpu_mask 3 lru_world_zero_first = Returned lru_world_zero_first [wake 0].
Proof.
  assert (Hr : in_range 3) by (unfold in_range, CPU_BITMAP_BITS; lia).
  assert (Hreg : mask_registered 3 lru_world_zero_first)
    by (apply mask_3_registered; vm_compute; eauto).
  assert (Hf : first_candidate 3 0) by (apply first_candidate_odd; reflexivity).
  split; [exact Hr|]. split; [exact Hreg|]. split; [exact Hf|].
  exact (proj1 wakeup_cpu_mask_zero_seed_sticks 3 lru_world_zero_first 0%nat
           (waiting_regs 0 0%N 0%N) Hr Hreg Hf eq_refl eq_refl).
Defined.

(** When the first record examined has a nonzero [waittod], the
    processor woken is the last one examined among the candidates tied
    with it on both [waittod] and [waittime]. *)
Lemma wakeup_cpu_mask_tie_highest_index (mask : Z) (w : world) (f : nat) (rf : REGS) :
  in_range mask -> mask_registered mask w ->
  first_candidate mask f -> host_mem w !! f = Some rf -> waittod rf <> 0%N ->
  exists j r,
    wakeup_cpu_mask mask w = Returned w [wake j] /\
    host_mem w !! j = Some r /\
    forall j' r', is_candidate mask j' = true -> host_mem w !! j' = Some r' ->
                  waittod r' = waittod r -> waittime r' = waittime r ->
                  (j' <= j)%nat.
Proof.
  intros Hr Hreg Hf Hrf Hrfnz.
  assert (Hnz : mask <> 0).
  { intros ->. destruct Hf as [Hc _]. unfold is_candidate in Hc.
    rewrite Z.testbit_0_l in Hc. discriminate. }
  destruct (wakeup_cpu_mask_selects w mask Hr Hnz Hreg)
    as (j & r & f' & rf' & Hrun & _ & Hrj & Hf' & Hrf' & _ & Hn).
  assert (f' = f) by (eapply first_candidate_unique; eassumption). subst f'.
  assert (rf' = rf) by congruence. subst rf'.
  destruct (Hn Hrfnz) as [Hrnz Hall].
  exists j, r. split; [exact Hrun|]. split; [exact Hrj|].
  intros j' r' Hc' Hr' Htod Htime.
  specialize (Hall j' r' Hc' Hr' ltac:(congruence)).
  unfold lru_le in Hall. lia.
Qed.

(** C10 (where the code departs from it).  Processors 1 and 2 are the
    candidates with the smallest nonzero [waittod], tied on it and on
    [waittime]; processor 0, examined first with a zero [waittod], is
    the one woken, not processor 2. *)
Theorem wakeup_cpu_mask_tie_after_zero_seed :
  (waittod <$> host_mem lru_world_zero_then_tie !! 0%nat) = Some 0%N /\
  host_mem lru_world_zero_then_tie !! 1%nat = Some (waiting_regs 1 3%N 7%N) /\
  host_mem lru_world_zero_then_tie !! 2%nat = Some (waiting_regs 2 3%N 7%N) /\
  wakeup_cpu_mask 7 lru_world_zero_then_tie
  = Returned lru_world_zero_then_tie [wake 0].
Proof. repeat split; vm_compute; reflexivity. Qed.

(** C9.  On an empty mask [wakeup_cpu_mask] returns at once: it issues
    no wake signal, leaves the storage as it was and does not fault,
    whatever the storage holds. *)
Theorem wakeup_cpu_mask_empty (w : world) :
  wakeup_cpu_mask 0 w = Returned w [].
Proof. reflexivity. Qed.

(** C8.  For a mask of registered processors [wakeup_cpus_mask]
    changes no storage and issues one wake signal for every set bit and
    no other: as many signals as the mask has bits set, each processor
    signalled once.  The signals are those of the mask alone: any other
    storage in which the mask's processors are registered, whatever its
    wait timestamps, gives the same signals. *)
Theorem wakeup_cpus_mask_wakes_each_bit (mask : Z) (w : world) :
  in_range mask -> mask_registered mask w ->
  exists tr,
    wakeup_cpus_mask mask w = Returned w tr /\
    length tr = popcount mask /\
    List.NoDup tr /\
    (forall e, In e tr <-> exists j, e = wake j /\ is_candidate mask j = true) /\
    (forall w', mask_registered mask w' -> wakeup_cpus_mask mask w' = Returned w' tr).
Proof.
  intros Hr Hreg.
  assert (Hrun : forall w0, mask_registered mask w0 ->
                 wakeup_cpus_mask mask w0 = Returned w0 (map wake (set_bits mask))).
  { intros w0 Hreg0. unfold wakeup_cpus_mask, set_bits.
    rewrite <- (Z.shiftr_0_r mask) at 1. change 0 with (Z.of_nat 0) at 1.
    rewrite wakeup_cpus_scan_trace; [reflexivity|exact Hreg0|].
    simpl Nat.add. rewrite Z2Nat.id by (unfold CPU_BITMAP_BITS; lia).
    apply in_range_shiftr, Hr. }
  exists (map wake (set_bits mask)).
  split; [apply Hrun, Hreg|]. split; [|split; [|split]].
  - rewrite length_map. apply set_bits_length, Hr.
  - apply List.NoDup_map_inv with (f := fun e => match e with
                                           | signal_condition (intcond p) => slot p
                                           | _ => O end).
    rewrite map_map. simpl. rewrite map_id. apply bits_from_NoDup.
  - intros e. rewrite in_map_iff. split.
    + intros (j & <- & Hj). exists j. split; [reflexivity|].
      apply in_set_bits; assumption.
    + intros (j & -> & Hj). exists j. split; [reflexivity|].
      apply in_set_bits; assumption.
  - intros w' Hreg'. apply Hrun, Hreg'.
Qed.

(** The mask of three registered processors of a sample meets the
    hypotheses, and three signals are issued. *)
Lemma wakeup_cpus_mask_wakes_each_bit_witness :
  in_range 7 /\ mask_registered 7 lru_world_5_2_9 /\
  exists tr, wakeup_cpus_mask 7 lru_world_5_2_9 = Returned lru_world_5_2_9 tr /\
             length tr = 3%nat.
Proof.
  assert (Hr : in_range 7) by (unfold in_range, CPU_BITMAP_BITS; lia).
  assert (Hreg : mask_registered 7 lru_world_5_2_9)
    by (apply mask_7_registered; vm_compute; eauto).
  split; [exact Hr|]. split; [exact Hreg|].
  destruct (wakeup_cpus_mask_wakes_each_bit 7 lru_world_5_2_9 Hr Hreg)
    as (tr & Hrun & Hlen & _).
  exists tr. split; [exact Hrun|exact Hlen].
Defined.

(** ** The scan of [synchronize_cpus] *)

(** The mask [synchronize_cpus] computes is the started processors that
    are neither waiting nor the caller. *)
Lemma synchronize_candidates_formula (w : world) (self : REGS) :
  synchronize_candidates w self =
  Z.land (Z.land (started_mask (sysblk w)) (bnot (waiting_mask (sysblk w))))
         (bnot (cpubit self)).
Proof.
  unfold synchronize_candidates. apply Z.bits_inj'. intros n Hn.
  rewrite !Z.land_spec, !bnot_testbit, Z.lor_spec by exact Hn.
  destruct (n <? CPU_BITMAP_BITS), (Z.testbit (started_mask (sysblk w)) n),
    (Z.testbit (waiting_mask (sysblk w)) n), (Z.testbit (cpubit self) n);
    reflexivity.
Qed.

Section BarrierScan.
Context `{ProcessorLoop}.

Lemma scan_result_nothing (mask n : Z) (w : world) (i k : nat) :
  (forall j, in_span i k j = true -> is_candidate mask j = false) ->
  scan_result mask n w i k mask n w.
Proof.
  intros Hnone. unfold scan_result. split; [reflexivity|].
  assert (Hout : forall j, in_span i k j && outstanding mask w j = false).
  { intros j. unfold outstanding. destruct (in_span i k j) eqn:Hs; [|reflexivity].
    rewrite (Hnone j Hs). reflexivity. }
  split; [|split; [|split]].
  - intros j. destruct (in_span i k j) eqn:Hs; simpl.
    + rewrite (Hnone j Hs). reflexivity.
    + rewrite andb_true_r. reflexivity.
  - rewrite filter_none; [simpl; lia|].
    intros j Hj. apply in_span_seq in Hj.
    unfold outstanding. rewrite (Hnone j Hj). reflexivity.
  - intros j. rewrite Hout. reflexivity.
  - intros j. rewrite Hout. reflexivity.
Qed.

Lemma in_span_1 (i j : nat) : in_span i 1 j = Nat.eqb j i.
Proof. rewrite in_span_S, in_span_0. apply orb_false_r. Qed.

Lemma in_span_S_self (i k : nat) : in_span (S i) k i = false.
Proof. unfold in_span. destruct (Nat.leb_spec (S i) i); [lia|reflexivity]. Qed.

(** A scan of slot [i] followed by a scan of the [k] slots after it is a
    scan of the [S k] slots from [i] on. *)
Lemma scan_result_compose (mask n : Z) (w : world) (i k : nat)
    (mask1 n1 : Z) (w1 : world) (mask' n' : Z) (w' : world) :
  scan_result mask n w i 1 mask1 n1 w1 ->
  scan_result mask1 n1 w1 (S i) k mask' n' w' ->
  scan_result mask n w i (S k) mask' n' w'.
Proof.
  intros (Hs1 & Hm1 & Hn1 & Hh1 & Hg1) (Hs2 & Hm2 & Hn2 & Hh2 & Hg2).
  assert (Hhost : forall j, j <> i -> host_mem w1 !! j = host_mem w !! j).
  { intros j Hne. rewrite Hh1, in_span_1.
    destruct (Nat.eqb_spec j i); [contradiction|reflexivity]. }
  assert (Hguest : forall j, j <> i -> guest_mem w1 !! j = guest_mem w !! j).
  { intros j Hne. rewrite Hg1, in_span_1.
    destruct (Nat.eqb_spec j i); [contradiction|reflexivity]. }
  assert (Hcand : forall j, j <> i -> is_candidate mask1 j = is_candidate mask j).
  { intros j Hne. rewrite Hm1, in_span_1.
    destruct (Nat.eqb_spec j i); [contradiction|]. simpl. apply andb_true_r. }
  assert (Hat : forall j, j <> i -> at_syncpoint w1 j = at_syncpoint w j).
  { intros j Hne. unfold at_syncpoint. rewrite Hhost by exact Hne. reflexivity. }
  assert (Hout : forall j, j <> i -> outstanding mask1 w1 j = outstanding mask w j).
  { intros j Hne. unfold outstanding. rewrite Hcand, Hat by exact Hne. reflexivity. }
  assert (Hrun : forall j, j <> i -> runs_guest w1 j = runs_guest w j).
  { intros j Hne. unfold runs_guest. rewrite Hhost by exact Hne. reflexivity. }
  unfold scan_result. split; [congruence|]. split; [|split; [|split]].
  - intros j. rewrite Hm2, Hm1, (in_span_S i k j), in_span_1.
    destruct (Nat.eqb_spec j i) as [->|Hne]; simpl.
    + rewrite in_span_S_self. simpl. rewrite andb_true_r. reflexivity.
    + rewrite Hat by exact Hne. rewrite andb_true_r. reflexivity.
  - rewrite Hn2, Hn1. simpl seq. simpl List.filter.
    rewrite (List.filter_ext_in (outstanding mask1 w1) (outstanding mask w)
               (seq (S i) k)).
    + destruct (outstanding mask w i); simpl length; lia.
    + intros j Hj. apply in_seq in Hj. apply Hout. lia.
  - intros j. rewrite Hh2, (in_span_S i k j).
    destruct (Nat.eqb_spec j i) as [->|Hne]; simpl.
    + rewrite in_span_S_self. simpl. rewrite Hh1, in_span_1, Nat.eqb_refl.
      reflexivity.
    + rewrite Hout, Hhost by exact Hne. reflexivity.
  - intros j. rewrite Hg2, (in_span_S i k j).
    destruct (Nat.eqb_spec j i) as [->|Hne]; simpl.
    + rewrite in_span_S_self. simpl. rewrite Hg1, in_span_1, Nat.eqb_refl.
      reflexivity.
    + rewrite Hout, Hrun, Hguest by exact Hne. reflexivity.
Qed.

Lemma scan_result_low (mask n : Z) (w : world) (i k : nat)
    (mask' n' : Z) (w' : world) :
  scan_result mask n w i k mask' n' w' -> low_mask mask -> low_mask mask'.
Proof.
  intros (_ & Hm & _) Hlow j Hj. rewrite Hm, (Hlow j Hj). reflexivity.
Qed.

Lemma scan_ready_next (mask n : Z) (w : world) (i k : nat)
    (mask1 n1 : Z) (w1 : world) :
  scan_result mask n w i 1 mask1 n1 w1 ->
  scan_ready mask w i (S k) -> scan_ready mask1 w1 (S i) k.
Proof.
  intros (Hs1 & Hm1 & Hn1 & Hh1 & Hg1) Hready j Hspan Hc.
  assert (Hne : j <> i).
  { intros ->. rewrite in_span_S_self in Hspan. discriminate. }
  assert (Hhost : host_mem w1 !! j = host_mem w !! j).
  { rewrite Hh1, in_span_1. destruct (Nat.eqb_spec j i); [contradiction|reflexivity]. }
  assert (Hguest : guest_mem w1 !! j = guest_mem w !! j).
  { rewrite Hg1, in_span_1. destruct (Nat.eqb_spec j i); [contradiction|reflexivity]. }
  assert (Hcand : is_candidate mask1 j = is_candidate mask j).
  { rewrite Hm1, in_span_1. destruct (Nat.eqb_spec j i); [contradiction|].
    simpl. apply andb_true_r. }
  destruct (Hready j) as [Hreg Hg].
  - rewrite in_span_S, Hspan. apply orb_true_r.
  - rewrite <- Hcand. exact Hc.
  - unfold registered, outstanding, runs_guest, at_syncpoint in *.
    rewrite Hhost, Hguest, Hcand. split; assumption.
Qed.

Lemma scan_step_at_syncpoint (mask n : Z) (w : world) (i : nat) :
  low_mask mask -> is_candidate mask i = true -> at_syncpoint w i = true ->
  scan_result mask n w i 1 (Z.lxor mask (CPU_BIT i)) n w.
Proof.
  intros Hlow Hc Hat.
  assert (Hi : Z.of_nat i < CPU_BITMAP_BITS).
  { destruct (Z.lt_ge_cases (Z.of_nat i) CPU_BITMAP_BITS) as [|Hge]; [assumption|].
    rewrite (Hlow i Hge) in Hc. discriminate. }
  assert (Hout : forall j, in_span i 1 j && outstanding mask w j = false).
  { intros j. rewrite in_span_1. destruct (Nat.eqb_spec j i) as [->|]; [|reflexivity].
    unfold outstanding. rewrite Hat. simpl. apply andb_false_r. }
  unfold scan_result. split; [reflexivity|]. split; [|split; [|split]].
  - intros j. rewrite lxor_CPU_BIT_candidate, in_span_1 by assumption.
    destruct (Nat.eqb_spec j i) as [->|]; simpl; [rewrite Hat|]; reflexivity.
  - simpl. unfold outstanding at 1. rewrite Hat, andb_false_r. simpl. lia.
  - intros j. rewrite Hout. reflexivity.
  - intros j. rewrite Hout. reflexivity.
Qed.

Lemma scan_step_marked (mask n : Z) (w : world) (i : nat) (r : REGS) :
  is_candidate mask i = true -> host_mem w !! i = Some r ->
  AT_SYNCPOINT r = false -> SIE_MODE (ON_IC_INTERRUPT r) = false ->
  scan_result mask n w i 1 mask (n + 1) (store (HOST i) (ON_IC_INTERRUPT r) w).
Proof.
  intros Hc Hr Hat Hsie.
  assert (Hout : outstanding mask w i = true).
  { unfold outstanding, at_syncpoint. rewrite Hc, Hr, Hat. reflexivity. }
  unfold scan_result. split; [reflexivity|]. split; [|split; [|split]].
  - intros j. rewrite in_span_1. destruct (Nat.eqb_spec j i) as [->|]; simpl.
    + unfold at_syncpoint. rewrite Hr, Hat, andb_true_r. reflexivity.
    + rewrite andb_true_r. reflexivity.
  - simpl. rewrite Hout. simpl. lia.
  - intros j. rewrite in_span_1. simpl. destruct (Nat.eqb_spec j i) as [->|Hne]; simpl.
    + rewrite Hout, Hr, lookup_insert_eq. reflexivity.
    + rewrite lookup_insert_ne by congruence. reflexivity.
  - intros j. rewrite in_span_1. simpl. destruct (Nat.eqb_spec j i) as [->|Hne]; simpl.
    + unfold runs_guest. rewrite Hr, Hsie, andb_false_r. reflexivity.
    + reflexivity.
Qed.

Lemma scan_step_marked_guest (mask n : Z) (w : world) (i : nat) (r g : REGS) :
  is_candidate mask i = true -> host_mem w !! i = Some r ->
  AT_SYNCPOINT r = false -> SIE_MODE (ON_IC_INTERRUPT r) = true ->
  guest_mem w !! i = Some g ->
  scan_result mask n w i 1 mask (n + 1)
    (store (GUEST i) (ON_IC_INTERRUPT g) (store (HOST i) (ON_IC_INTERRUPT r) w)).
Proof.
  intros Hc Hr Hat Hsie Hg.
  assert (Hout : outstanding mask w i = true).
  { unfold outstanding, at_syncpoint. rewrite Hc, Hr, Hat. reflexivity. }
  unfold scan_result. split; [reflexivity|]. split; [|split; [|split]].
  - intros j. rewrite in_span_1. destruct (Nat.eqb_spec j i) as [->|]; simpl.
    + unfold at_syncpoint. rewrite Hr, Hat, andb_true_r. reflexivity.
    + rewrite andb_true_r. reflexivity.
  - simpl. rewrite Hout. simpl. lia.
  - intros j. rewrite in_span_1. simpl. destruct (Nat.eqb_spec j i) as [->|Hne]; simpl.
    + rewrite Hout, Hr, lookup_insert_eq. reflexivity.
    + rewrite lookup_insert_ne by congruence. reflexivity.
  - intros j. rewrite in_span_1. simpl. destruct (Nat.eqb_spec j i) as [->|Hne]; simpl.
    + unfold runs_guest. rewrite Hout, Hr, Hsie, Hg, lookup_insert_eq. reflexivity.
    + rewrite lookup_insert_ne by congruence. reflexivity.
Qed.

(** The scan does not fault on structures that exist, and leaves behind
    what [scan_result] says. *)
Lemma synchronize_scan_spec (k : nat) :
  forall (i : nat) (mask n : Z) (w : world),
    low_mask mask -> scan_ready mask w i k ->
    exists mask' n' w',
      synchronize_scan k i mask n w = Some (mask', n', w') /\
      scan_result mask n w i k mask' n' w'.
Proof.
  induction k as [|k IH]; intros i mask n w Hlow Hready.
  - exists mask, n, w. split; [reflexivity|]. apply scan_result_nothing.
    intros j Hj. rewrite in_span_0 in Hj. discriminate.
  - simpl. destruct (Z.eqb_spec mask 0) as [->|Hnz].
    + exists 0, n, w. split; [reflexivity|]. apply scan_result_nothing.
      intros j _. apply Z.testbit_0_l.
    + assert (Hnext : forall mask1 n1 w1,
                 scan_result mask n w i 1 mask1 n1 w1 ->
                 exists mask' n' w',
                   synchronize_scan k (S i) mask1 n1 w1 = Some (mask', n', w') /\
                   scan_result mask n w i (S k) mask' n' w').
      { intros mask1 n1 w1 Hstep.
        destruct (IH (S i) mask1 n1 w1) as (mask' & n' & w' & Hrun & Hres).
        - eapply scan_result_low; eassumption.
        - eapply scan_ready_next; eassumption.
        - exists mask', n', w'. split; [exact Hrun|].
          eapply scan_result_compose; eassumption. }
      rewrite candidate_test, negb_involutive by exact Hlow.
      destruct (is_candidate mask i) eqn:Hc.
      * destruct (Hready i) as [[r Hr] Hguest]; [|exact Hc|].
        { rewrite in_span_S, Nat.eqb_refl. reflexivity. }
        unfold sysblk_regs. rewrite Hr.
        change (deref w (HOST i)) with (host_mem w !! i). rewrite Hr.
        destruct (AT_SYNCPOINT r) eqn:Hat.
        -- apply Hnext, scan_step_at_syncpoint; try assumption.
           unfold at_syncpoint. rewrite Hr. exact Hat.
        -- destruct (SIE_MODE (ON_IC_INTERRUPT r)) eqn:Hsie.
           ++ destruct Hguest as [g Hg].
              { unfold outstanding, at_syncpoint. rewrite Hc, Hr, Hat. reflexivity. }
              { unfold runs_guest. rewrite Hr. exact Hsie. }
              change (guest_mem (store (HOST i) (ON_IC_INTERRUPT r) w) !! slot (HOST i))
                with (guest_mem w !! i).
              rewrite Hg. apply Hnext, scan_step_marked_guest; assumption.
           ++ apply Hnext, scan_step_marked; assumption.
      * apply Hnext, scan_result_nothing. intros j Hj.
        rewrite in_span_1 in Hj. apply Nat.eqb_eq in Hj. subst j. exact Hc.
Qed.

End BarrierScan.

(** ** The barrier: the properties *)

Lemma world_eq (w w' : world) :
  sysblk w' = sysblk w ->
  (forall j, host_mem w' !! j = host_mem w !! j) ->
  (forall j, guest_mem w' !! j = guest_mem w !! j) ->
  w' = w.
Proof.
  destruct w as [s h g], w' as [s' h' g']. simpl. intros -> Hh Hg.
  f_equal; apply map_eq; assumption.
Qed.

Section BarrierFacts.
Context `{ProcessorLoop}.

(** C2.  The mask [synchronize_cpus] starts from is the started
    processors that are neither waiting nor the caller.  Where the
    structures the scan reads exist, the scan ends without a fault and
    [synchronize_cpus] goes on with its result: a candidate that is at a
    safe stop point is taken out of the mask and nothing is done to it;
    any other candidate stays in the mask, has the interrupt marked
    pending on its structure, and on its guest structure if it runs a
    guest, and is counted in [n]; nothing else is touched. *)
Theorem synchronize_cpus_marks_candidates
    (regs : regs_ptr) (x self : REGS) (w : world) :
  let cand :=
    Z.land (Z.land (started_mask (sysblk w)) (bnot (waiting_mask (sysblk w))))
           (bnot (cpubit self)) in
  deref w regs = Some x -> deref w (hostregs regs) = Some self ->
  scan_ready cand w 0 (hicpu (sysblk w)) ->
  synchronize_candidates w self = cand /\
  exists mask n w1,
    synchronize_scan (hicpu (sysblk w)) 0 cand 0 w = Some (mask, n, w1) /\
    synchronize_cpus regs [] w =
      (if negb (n =? 0) && negb (mask =? 0)
       then Parked (with_sysblk
                      (fun s => set_intowner LOCK_OWNER_NONE
                                  (set_syncing true (set_sync_mask mask s))) w1)
                   [wait_condition sync_cond]
       else Returned w1 []) /\
    sysblk w1 = sysblk w /\
    n = Z.of_nat (length (List.filter (outstanding cand w)
                            (seq 0 (hicpu (sysblk w))))) /\
    (forall i r,
        (i < hicpu (sysblk w))%nat -> is_candidate cand i = true ->
        host_mem w !! i = Some r ->
        if AT_SYNCPOINT r then
          is_candidate mask i = false /\
          host_mem w1 !! i = Some r /\
          guest_mem w1 !! i = guest_mem w !! i
        else
          is_candidate mask i = true /\
          outstanding cand w i = true /\
          host_mem w1 !! i = Some (ON_IC_INTERRUPT r) /\
          guest_mem w1 !! i =
            if SIE_MODE (ON_IC_INTERRUPT r)
            then ON_IC_INTERRUPT <$> guest_mem w !! i
            else guest_mem w !! i) /\
    (forall i,
        is_candidate cand i = false \/ (hicpu (sysblk w) <= i)%nat ->
        is_candidate mask i = is_candidate cand i /\
        host_mem w1 !! i = host_mem w !! i /\
        guest_mem w1 !! i = guest_mem w !! i).
Proof.
  intros cand Hx Hself Hready.
  assert (Hcand : synchronize_candidates w self = cand)
    by apply synchronize_candidates_formula.
  assert (Hlow : low_mask cand) by (rewrite <- Hcand; apply land_wrap_low).
  destruct (synchronize_scan_spec (hicpu (sysblk w)) 0 cand 0 w Hlow Hready)
    as (mask & n & w1 & Hscan & Hs & Hm & Hn & Hh & Hg).
  assert (Hspan : forall i, in_span 0 (hicpu (sysblk w)) i = (i <? hicpu (sysblk w))%nat).
  { intros i. unfold in_span. reflexivity. }
  split; [exact Hcand|].
  exists mask, n, w1. split; [exact Hscan|]. split; [|split; [exact Hs|split; [|split]]].
  - unfold synchronize_cpus. rewrite Hx, Hself, Hcand, Hscan. reflexivity.
  - rewrite Hn. lia.
  - intros i r Hi Hc Hr. specialize (Hm i). specialize (Hh i). specialize (Hg i).
    rewrite Hspan in Hm, Hh, Hg. apply Nat.ltb_lt in Hi. rewrite Hi in Hm, Hh, Hg.
    unfold outstanding, runs_guest, at_syncpoint in *. rewrite Hc, Hr in *.
    simpl in Hm, Hh, Hg. destruct (AT_SYNCPOINT r); simpl in *.
    + repeat split; assumption.
    + repeat split; try assumption.
  - intros i Hi. specialize (Hm i). specialize (Hh i). specialize (Hg i).
    rewrite Hspan in Hm, Hh, Hg. unfold outstanding in Hh, Hg.
    destruct Hi as [Hc|Hi].
    + rewrite Hc in *. rewrite andb_false_r in Hh, Hg. simpl in *.
      repeat split; assumption.
    + apply Nat.ltb_ge in Hi. rewrite Hi in *. simpl in *.
      rewrite andb_true_r in Hm. repeat split; assumption.
Qed.

(** C6.  When every candidate below [hicpu] is at a safe stop point,
    so that nothing is counted, [synchronize_cpus] returns without
    waiting on anything, whatever the schedule, and leaves the storage
    as it was: [syncing], [sync_mask] and [intowner] among the rest. *)
Theorem synchronize_cpus_returns_at_once
    (regs : regs_ptr) (x self : REGS) (sched : list interference) (w : world) :
  deref w regs = Some x -> deref w (hostregs regs) = Some self ->
  (forall i, (i < hicpu (sysblk w))%nat ->
             is_candidate (synchronize_candidates w self) i = true ->
             registered w i /\ at_syncpoint w i = true) ->
  synchronize_cpus regs sched w = Returned w [].
Proof.
  intros Hx Hself Hquiet.
  set (cand := synchronize_candidates w self) in *.
  assert (Hlow : low_mask cand) by apply land_wrap_low.
  assert (Hnone : forall j, in_span 0 (hicpu (sysblk w)) j = true ->
                            outstanding cand w j = false).
  { intros j Hj. unfold outstanding.
    destruct (is_candidate cand j) eqn:Hc; [|reflexivity].
    destruct (Hquiet j) as [_ Hat]; [|exact Hc|rewrite Hat; reflexivity].
    unfold in_span in Hj. apply andb_true_iff in Hj. destruct Hj as [_ Hj].
    apply Nat.ltb_lt in Hj. lia. }
  assert (Hready : scan_ready cand w 0 (hicpu (sysblk w))).
  { intros j Hj Hc. split.
    - apply Hquiet; [|exact Hc]. unfold in_span in Hj.
      apply andb_true_iff in Hj. destruct Hj as [_ Hj]. apply Nat.ltb_lt in Hj. lia.
    - rewrite (Hnone j Hj). discriminate. }
  destruct (synchronize_scan_spec (hicpu (sysblk w)) 0 cand 0 w Hlow Hready)
    as (mask & n & w1 & Hscan & Hs & Hm & Hn & Hh & Hg).
  assert (Hn0 : n = 0).
  { rewrite Hn, filter_none; [reflexivity|].
    intros j Hj. apply Hnone, in_span_seq, Hj. }
  assert (Hw : w1 = w).
  { apply world_eq; [exact Hs| |].
    - intros j. rewrite Hh. destruct (in_span 0 (hicpu (sysblk w)) j) eqn:Hj;
        [rewrite (Hnone j Hj)|]; reflexivity.
    - intros j. rewrite Hg. destruct (in_span 0 (hicpu (sysblk w)) j) eqn:Hj;
        [rewrite (Hnone j Hj)|]; reflexivity. }
  unfold synchronize_cpus. rewrite Hx, Hself. fold cand. rewrite Hscan, Hn0, Hw.
  reflexivity.
Qed.

End BarrierFacts.

Lemma sample_scan_ready (w : world) :
  (forall j, (j < 5)%nat -> registered w j) ->
  is_Some (guest_mem w !! 2%nat) ->
  (forall j, (j < 5)%nat -> j <> 2%nat ->
             @runs_guest sample_loop w j = false) ->
  forall mask, @scan_ready sample_loop mask w 0 5.
Proof.
  intros Hreg Hguest Hrun mask j Hj Hc.
  assert (Hlt : (j < 5)%nat).
  { unfold in_span in Hj. apply andb_true_iff in Hj. destruct Hj as [_ Hj].
    apply Nat.ltb_lt in Hj. lia. }
  split; [apply Hreg, Hlt|]. intros _ Hg.
  destruct (Nat.eq_dec j 2%nat) as [->|Hne]; [exact Hguest|].
  rewrite (Hrun j Hlt Hne) in Hg. discriminate.
Qed.

Lemma below_5 (P : nat -> Prop) :
  P 0%nat -> P 1%nat -> P 2%nat -> P 3%nat -> P 4%nat ->
  forall j, (j < 5)%nat -> P j.
Proof.
  intros H0 H1 H2 H3 H4 j Hj.
  destruct j as [|[|[|[|[|j]]]]]; try assumption. lia.
Qed.

Lemma barrier_world_ready : forall mask, @scan_ready sample_loop mask barrier_world 0 5.
Proof.
  apply sample_scan_ready.
  - apply below_5; vm_compute; eauto.
  - vm_compute. eauto.
  - apply (below_5 (fun j => j <> 2%nat -> @runs_guest sample_loop barrier_world j = false));
      intros Hne; try reflexivity. contradiction.
Qed.

(** The barrier sample meets the hypotheses: processors 1 and 2 are
    counted and stay in the mask, processor 4 is taken out. *)
Lemma synchronize_cpus_marks_candidates_witness :
  deref barrier_world (HOST 0) = Some (running_regs 0 false false) /\
  @scan_ready sample_loop 22 barrier_world 0 5 /\
  exists mask n w1,
    @synchronize_scan sample_loop 5 0 22 0 barrier_world = Some (mask, n, w1) /\
    n = 2 /\
    is_candidate mask 1 = true /\ is_candidate mask 4 = false.
Proof.
  split; [reflexivity|]. split; [apply barrier_world_ready|].
  destruct (@synchronize_cpus_marks_candidates sample_loop (HOST 0)
              (running_regs 0 false false) (running_regs 0 false false)
              barrier_world eq_refl eq_refl (barrier_world_ready _))
    as (_ & mask & n & w1 & Hscan & _ & _ & Hn & Hcand & _).
  exists mask, n, w1. split; [exact Hscan|]. split; [exact Hn|]. split.
  - exact (proj1 (Hcand 1%nat (running_regs 1 false false)
                    ltac:(simpl; lia) eq_refl eq_refl)).
  - exact (proj1 (Hcand 4%nat (running_regs 4 true false)
                    ltac:(simpl; lia) eq_refl eq_refl)).
Defined.

(** The quiet sample meets the hypotheses: the call returns at once. *)
Lemma synchronize_cpus_returns_at_once_witness :
  deref quiet_world (HOST 0) = Some (running_regs 0 false false) /\
  @synchronize_cpus sample_loop (HOST 0) [undisturbed] quiet_world
  = Returned quiet_world [].
Proof.
  split; [reflexivity|].
  apply (@synchronize_cpus_returns_at_once sample_loop (HOST 0)
           (running_regs 0 false false) (running_regs 0 false false)
           [undisturbed] quiet_world eq_refl eq_refl).
  apply (below_5 (fun i =>
           is_candidate (synchronize_candidates quiet_world
                           (running_regs 0 false false)) i = true ->
           registered quiet_world i /\
           @at_syncpoint sample_loop quiet_world i = true));
    intros Hc; try (vm_compute in Hc; discriminate);
    (split; [vm_compute; eauto|reflexivity]).
Defined.

(** ** The interrupt lock: the properties *)



Lemma Obtain_Interrupt_Lock_loop_eq (p : regs_ptr) (sched : list interference)
    (w : world) (tr : list event) :
  Obtain_Interrupt_Lock_loop p sched w tr =
  match deref w p, deref w (hostregs p) with
  | Some _, Some h =>
      if syncing (sysblk w) then
        match sched with
        | [] => Parked (own_bit_removed w h) (tr ++ barrier_turn_events w h)
        | f :: sched' =>
            Obtain_Interrupt_Lock_loop p sched' (f (own_bit_removed w h))
              (tr ++ barrier_turn_events w h)
        end
      else
        Returned
          (with_sysblk (set_intowner (LOCK_OWNER_CPU (cpuad h)))
             (store (hostregs p) (set_intwait false h) w))
          tr
  | _, _ => Fault
  end.
Proof. destruct sched; reflexivity. Qed.




(** ** The pending mask under the operations *)

Lemma Release_Interrupt_Lock_keeps_barrier_inv (regs : option regs_ptr) (w : world) :
  barrier_inv w -> observed barrier_inv (Release_Interrupt_Lock regs w).
Proof. intros Hinv. exact Hinv. Qed.

Lemma wakeup_cpus_scan_keeps_world (P : world -> Prop) (fuel : nat) :
  forall (w : world) (mask : Z) (i : nat) (tr : list event),
    P w -> observed P (wakeup_cpus_scan fuel w mask i tr).
Proof.
  induction fuel as [|fuel IH]; intros w mask i tr Hw; simpl.
  - destruct (mask =? 0); simpl; [exact Hw|exact I].
  - destruct (mask =? 0); simpl; [exact Hw|].
    destruct (negb (Z.land mask 1 =? 0)); [|apply IH, Hw].
    destruct (sysblk_regs w i); simpl; [apply IH, Hw|exact I].
Qed.

Lemma wakeup_cpus_mask_keeps_barrier_inv (mask : Z) (w : world) :
  barrier_inv w -> observed barrier_inv (wakeup_cpus_mask mask w).
Proof. apply wakeup_cpus_scan_keeps_world. Qed.

Lemma wakeup_cpu_mask_keeps_barrier_inv (mask : Z) (w : world) :
  barrier_inv w -> observed barrier_inv (wakeup_cpu_mask mask w).
Proof.
  intros Hinv. unfold wakeup_cpu_mask. destruct (negb (mask =? 0)); [|exact Hinv].
  destruct (wakeup_cpu_scan _ w mask 0 None) as [[[q t]|]| |]; simpl; auto.
Qed.

Lemma Obtain_Interrupt_Lock_loop_keeps_barrier_inv (p : regs_ptr)
    (sched : list interference) :
  forall (w : world) (tr : list event),
    Forall (fun f : interference => forall w0, barrier_inv w0 -> barrier_inv (f w0)) sched ->
    barrier_inv w ->
    observed barrier_inv (Obtain_Interrupt_Lock_loop p sched w tr).
Proof.
  induction sched as [|f sched IH]; intros w tr Hkeep Hinv;
    rewrite Obtain_Interrupt_Lock_loop_eq;
    destruct (deref w p); try exact I;
    destruct (deref w (hostregs p)) as [h|]; try exact I;
    destruct (syncing (sysblk w)) eqn:Hsync.
  - simpl. intros Hoff. simpl in Hoff. congruence.
  - simpl. destruct p; exact Hinv.
  - apply Forall_cons in Hkeep. destruct Hkeep as [Hf Hrest].
    apply IH; [exact Hrest|]. apply Hf. intros Hoff. simpl in Hoff. congruence.
  - simpl. destruct p; exact Hinv.
Qed.

Lemma Obtain_Interrupt_Lock_keeps_barrier_inv (regs : option regs_ptr)
    (sched : list interference) (w : world) :
  Forall (fun f : interference => forall w0, barrier_inv w0 -> barrier_inv (f w0)) sched ->
  barrier_inv w ->
  observed barrier_inv (Obtain_Interrupt_Lock regs sched w).
Proof.
  intros Hkeep Hinv. unfold Obtain_Interrupt_Lock. destruct regs as [p|].
  - destruct (deref w p); try exact I.
    destruct (deref w (hostregs p)) as [h|]; try exact I.
    destruct sched as [|f sched].
    + simpl. destruct p; exact Hinv.
    + apply Forall_cons in Hkeep. destruct Hkeep as [Hf Hrest].
      apply Obtain_Interrupt_Lock_loop_keeps_barrier_inv; [exact Hrest|].
      apply Hf. destruct p; exact Hinv.
  - destruct sched as [|f sched]; [exact Hinv|].
    apply Forall_cons in Hkeep. destruct Hkeep as [Hf _]. simpl.
    exact (Hf w Hinv).
Qed.

Section BarrierInvariant.
Context `{ProcessorLoop}.

Lemma synchronize_scan_sysblk (k : nat) :
  forall (i : nat) (mask n : Z) (w : world) (mask' n' : Z) (w' : world),
    synchronize_scan k i mask n w = Some (mask', n', w') ->
    sysblk w' = sysblk w.
Proof.
  induction k as [|k IH]; intros i mask n w mask' n' w' Hscan; simpl in Hscan.
  - injection Hscan as _ _ <-. reflexivity.
  - repeat case_match; simplify_eq; try reflexivity;
      apply IH in Hscan; rewrite Hscan;
      try reflexivity;
      match goal with q : regs_ptr |- _ => destruct q; reflexivity end.
Qed.

(** Up to its wait, and when it does not wait, [synchronize_cpus] keeps
    the invariant. *)
Lemma synchronize_cpus_parked_keeps_barrier_inv (regs : regs_ptr) (w : world) :
  barrier_inv w -> observed barrier_inv (synchronize_cpus regs [] w).
Proof.
  intros Hinv. unfold synchronize_cpus.
  destruct (deref w regs); try exact I.
  destruct (deref w (hostregs regs)) as [h|]; try exact I.
  destruct (synchronize_scan _ 0 _ 0 w) as [[[mask n] w1]|] eqn:Hscan; try exact I.
  apply synchronize_scan_sysblk in Hscan.
  destruct (negb (n =? 0) && negb (mask =? 0)); simpl.
  - intros Hoff. simpl in Hoff. discriminate.
  - unfold barrier_inv. rewrite Hscan. exact Hinv.
Qed.

(** When it resumes from its wait [synchronize_cpus] turns [syncing] off
    and leaves [sync_mask] as it finds it. *)
Lemma synchronize_cpus_resumed (regs : regs_ptr) (w w2 w' : world)
    (f : interference) (sched : list interference) (tr tr' : list event) :
  synchronize_cpus regs [] w = Parked w2 tr ->
  synchronize_cpus regs (f :: sched) w = Returned w' tr' ->
  syncing (sysblk w') = false /\
  sync_mask (sysblk w') = sync_mask (sysblk (f w2)) /\
  tr' = [wait_condition sync_cond; broadcast_condition sync_bc_cond].
Proof.
  unfold synchronize_cpus.
  destruct (deref w regs); [|discriminate].
  destruct (deref w (hostregs regs)) as [h|]; [|discriminate].
  destruct (synchronize_scan _ 0 _ 0 w) as [[[mask n] w1]|]; [|discriminate].
  destruct (negb (n =? 0) && negb (mask =? 0)); [|discriminate].
  intros Hpark Hret. cbv beta iota zeta in Hpark, Hret. injection Hpark as <- _.
  destruct (deref _ regs); [|discriminate].
  destruct (deref _ (hostregs regs)) as [h'|]; [|discriminate].
  injection Hret as <- <-. repeat split; reflexivity.
Qed.

(** So it keeps the invariant when the mask it finds is empty, and
    breaks it when the mask it finds is not. *)
Lemma synchronize_cpus_resumed_barrier_inv (regs : regs_ptr) (w w2 w' : world)
    (f : interference) (sched : list interference) (tr tr' : list event) :
  synchronize_cpus regs [] w = Parked w2 tr ->
  synchronize_cpus regs (f :: sched) w = Returned w' tr' ->
  (barrier_inv w' <-> sync_mask (sysblk (f w2)) = 0).
Proof.
  intros Hpark Hret.
  destruct (synchronize_cpus_resumed regs w w2 w' f sched tr tr' Hpark Hret)
    as (Hoff & Hmask & _).
  unfold barrier_inv. rewrite Hmask. split; [intros Hinv; apply Hinv, Hoff|auto].
Qed.

End BarrierInvariant.

(** C3 (where the code departs from it).  In the barrier sample
    processor 0 calls [synchronize_cpus] and waits for processors 1 and
    2.  Woken with the storage as it left it, the mask still holding
    both, it turns [syncing] off all the same: it returns with
    [syncing] off and [sync_mask] not empty, although the invariant held
    when it was called and when it was woken. *)
Theorem synchronize_cpus_breaks_barrier_inv :
  barrier_inv barrier_world /\
  (exists w2,
      @synchronize_cpus sample_loop (HOST 0) [] barrier_world
      = Parked w2 [wait_condition sync_cond] /\
      barrier_inv w2 /\ barrier_inv (undisturbed w2)) /\
  exists w',
    @synchronize_cpus sample_loop (HOST 0) [undisturbed] barrier_world
    = Returned w' [wait_condition sync_cond; broadcast_condition sync_bc_cond] /\
    syncing (sysblk w') = false /\
    sync_mask (sysblk w') = 6 /\
    ~ barrier_inv w'.
Proof.
  split; [intros _; reflexivity|]. split.
  - eexists. split; [vm_compute; reflexivity|].
    split; intros Hoff; vm_compute in Hoff; discriminate.
  - eexists. split; [vm_compute; reflexivity|].
    split; [reflexivity|]. split; [reflexivity|].
    intros Hinv. specialize (Hinv eq_refl). vm_compute in Hinv. discriminate.
Qed.

(** ** The release of the lock: the properties *)

(** C7 (as amended).  [Release_Interrupt_Lock] makes no check of who
    holds the lock: whoever the requester and whatever [intowner], it
    sets [intowner] to "none", releases the lock and returns; it never
    faults, does not look at its argument and touches nothing else. *)
Theorem Release_Interrupt_Lock_unconditional
    (regs : option regs_ptr) (w : world) :
  exists w',
    Release_Interrupt_Lock regs w = Returned w' [release_lock] /\
    intowner (sysblk w') = LOCK_OWNER_NONE /\
    syncing (sysblk w') = syncing (sysblk w) /\
    sync_mask (sysblk w') = sync_mask (sysblk w) /\
    started_mask (sysblk w') = started_mask (sysblk w) /\
    waiting_mask (sysblk w') = waiting_mask (sysblk w) /\
    hicpu (sysblk w') = hicpu (sysblk w) /\
    host_mem w' = host_mem w /\ guest_mem w' = guest_mem w /\
    forall regs', Release_Interrupt_Lock regs' w = Release_Interrupt_Lock regs w.
Proof.
  eexists. split; [reflexivity|]. repeat split; reflexivity.
Qed.

(** The claim C7 as it is stated fails: processor 1 does not hold the
    lock of the barrier sample, processor 0 does, and its release is
    carried out. *)
Lemma release_checks_owner_fails :
  ~ holds_lock (Some (HOST 1)) barrier_world /\
  Release_Interrupt_Lock (Some (HOST 1)) barrier_world
  = Returned (with_sysblk (set_intowner LOCK_OWNER_NONE) barrier_world)
             [release_lock] /\
  ~ release_checks_owner (Some (HOST 1)) barrier_world.
Proof.
  assert (Hnot : ~ holds_lock (Some (HOST 1)) barrier_world).
  { intros (h & Hh & Hown). vm_compute in Hh. injection Hh as <-.
    vm_compute in Hown. discriminate. }
  split; [exact Hnot|]. split; [reflexivity|].
  intros Hcheck. specialize (Hcheck Hnot). discriminate.
Qed.
